(** * FarmersAgent: catalog, listing, cart and RFQ state of [src/App.jsx]

    A shallow embedding of the state handlers of the storefront
    ([addToCart], [setQty], [removeItem], [checkout], [submitRFQ],
    [saveProduct], [FarmerForm.handleSubmit]) and of the derived listing
    [filtered], followed by the properties of the specification and by
    further properties of the handlers, of the cart drawer, of
    [classNames], [farmersById], the RFQ modal and the 3D viewer.

    Conventions of the embedding.
    - A JavaScript string is the list of its UTF-16 code units.
    - The numbers the handlers compute with (prices, stock, MOQ, quantities)
      are integers, modelled in [Z]; ratings carry one decimal and are
      modelled in [Q].
    - React state is passed explicitly: a handler takes the state and
      returns the next one; [alert] calls are returned as values.
    - [Math.random] and [Date] are inputs of the handlers that call them.
    - [unitPriceFor], which the specification describes and the program
      does not define, is modelled from the specification. *)

From Stdlib Require Import ZArith QArith List String Ascii Bool Lia Lqa Sorted.
From stdpp Require Import base numbers list gmap.
Import ListNotations.

Local Open Scope Z_scope.

(** ** Strings *)

Definition jsstring := list N.

(** The code units of a literal (one unit per character of the literal,
    which is exact for the Basic Latin literals of the source). *)
Fixpoint js (s : string) : jsstring :=
  match s with
  | EmptyString => []
  | String c s' => N_of_ascii c :: js s'
  end.

(** [a === b] on strings and on numbers. *)
Definition str_eq (a b : jsstring) : bool := bool_decide (a = b).

(** ** Data model *)

Module Farmer.
Record t := mk { id : jsstring; name : jsstring; location : jsstring; rating : Q }.
End Farmer.

Module Tier.
Record t := mk { min : Z; priceINR : Z }.
End Tier.

Module Product.
Record t := mk {
  id : jsstring;
  name : jsstring;
  priceINR : Z;
  stock : Z;
  moq : Z;
  category : jsstring;
  image : jsstring;
  farmerId : jsstring;
  rating : Q;
  bulkTiers : list Tier.t
}.
End Product.

(** A cart line is the object [{ ...p, qty }]: every field of the product
    as it was when the line was created, and the quantity. *)
Module CartLine.
Record t := mk { product : Product.t; qty : Z }.
Definition id (x : t) : jsstring := Product.id (product x).
Definition priceINR (x : t) : Z := Product.priceINR (product x).
End CartLine.

Definition initialFarmers : list Farmer.t :=
  [ Farmer.mk (js "f1") (js "Green Valley Farm") (js "Nashik") 4.7;
    Farmer.mk (js "f2") (js "Sunrise Dairy") (js "Pune") 4.5;
    Farmer.mk (js "f3") (js "Riverbend Organics") (js "Nagpur") 4.9 ].

Definition mangoes : Product.t :=
  Product.mk (js "p1") (js "Alphonso Mangoes (1kg)") 299 4200 50 (js "Fruits")
    (js "https://images.unsplash.com/photo-1550258987-190a2d41a8ba?q=80&w=1200&auto=format&fit=crop")
    (js "f1") 4.8
    [ Tier.mk 50 285; Tier.mk 200 270; Tier.mk 1000 255 ].

Definition tomatoes : Product.t :=
  Product.mk (js "p2") (js "Organic Tomatoes (1kg)") 89 9000 100 (js "Vegetables")
    (js "https://images.unsplash.com/photo-1546470427-0fd2772bca1c?q=80&w=1200&auto=format&fit=crop")
    (js "f3") 4.6
    [ Tier.mk 100 84; Tier.mk 500 80; Tier.mk 2500 76 ].

Definition milk : Product.t :=
  Product.mk (js "p3") (js "Fresh Cow Milk (1L)") 75 12000 200 (js "Dairy")
    (js "https://images.unsplash.com/photo-1550581190-9c1c48d21d6c?q=80&w=1200&auto=format&fit=crop")
    (js "f2") 4.4
    [ Tier.mk 200 72; Tier.mk 1000 69; Tier.mk 5000 66 ].

Definition rice : Product.t :=
  Product.mk (js "p4") (js "Basmati Rice (5kg)") 649 3000 20 (js "Grains")
    (js "https://images.unsplash.com/photo-1607623814075-e51df1bdc82f?q=80&w=1200&auto=format&fit=crop")
    (js "f3") 4.7
    [ Tier.mk 20 630; Tier.mk 200 610; Tier.mk 1000 595 ].

(** The name of the fifth product is written with U+2011 (non-breaking
    hyphen) between "Free" and "range". *)
Definition eggs : Product.t :=
  Product.mk (js "p5") (js "Free" ++ [8209%N] ++ js "range Eggs (12)") 145 6000 50 (js "Dairy")
    (js "https://images.unsplash.com/photo-1517959105821-eaf2591984dd?q=80&w=1200&auto=format&fit=crop")
    (js "f2") 4.5
    [ Tier.mk 50 140; Tier.mk 500 135; Tier.mk 3000 128 ].

Definition initialProducts : list Product.t := [ mangoes; tomatoes; milk; rice; eggs ].

Definition CATEGORIES : list jsstring :=
  [ js "All"; js "Fruits"; js "Vegetables"; js "Dairy"; js "Grains" ].

(** ** String operations used by the listing *)

(** The code units removed by [String.prototype.trim]: the WhiteSpace and
    LineTerminator productions of ECMAScript. *)
Definition isWhiteSpace (c : N) : bool :=
  ((c =? 9) || (c =? 10) || (c =? 11) || (c =? 12) || (c =? 13) || (c =? 32)
   || (c =? 160) || (c =? 5760) || ((8192 <=? c) && (c <=? 8202))
   || (c =? 8232) || (c =? 8233) || (c =? 8239) || (c =? 8287)
   || (c =? 12288) || (c =? 65279))%N.

Fixpoint trimStart (s : jsstring) : jsstring :=
  match s with
  | c :: s' => if isWhiteSpace c then trimStart s' else s
  | [] => []
  end.

Definition trimEnd (s : jsstring) : jsstring := rev (trimStart (rev s)).

Definition trim (s : jsstring) : jsstring := trimEnd (trimStart s).

(** A string in a condition is true when it is not empty. *)
Definition truthy (s : jsstring) : bool :=
  match s with [] => false | _ :: _ => true end.

(** Empty, or white space only. *)
Definition blank (s : jsstring) : Prop := Forall (fun c => isWhiteSpace c = true) s.

Fixpoint startsWith (s t : jsstring) {struct t} : bool :=
  match t, s with
  | [], _ => true
  | _ :: _, [] => false
  | c :: t', d :: s' => (c =? d)%N && startsWith s' t'
  end.

(** [s.includes(t)]: [t] occurs in [s] as a run of consecutive units. *)
Fixpoint includes (s t : jsstring) : bool :=
  startsWith s t ||
  match s with
  | [] => false
  | _ :: s' => includes s' t
  end.

(** Lower-casing of the Basic Latin letters, the part of
    [String.prototype.toLowerCase] the examples below rely on. *)
Definition toLowerCaseASCII (s : jsstring) : jsstring :=
  map (fun c => if ((65 <=? c) && (c <=? 90))%N then (c + 32)%N else c) s.

(** ** [Array.prototype.sort] *)

(** ECMAScript requires [sort] to be stable. For a comparator that orders
    by a numeric key the sorted array is therefore determined: it is the
    one a stable insertion sort builds. [lte a b] stands for
    [compareFn(a, b) <= 0]. *)
Section Sort.
Context {A : Type} (lte : A -> A -> bool).

Fixpoint insert (x : A) (l : list A) : list A :=
  match l with
  | [] => [x]
  | y :: l' => if lte x y then x :: l else y :: insert x l'
  end.

Definition sort (l : list A) : list A := foldr insert [] l.
End Sort.

Definition sortZ {A} (compareFn : A -> A -> Z) : list A -> list A :=
  sort (fun a b => compareFn a b <=? 0).

Definition sortQ {A} (compareFn : A -> A -> Q) : list A -> list A :=
  sort (fun a b => Qle_bool (compareFn a b) 0).

(** ** Arrays in the heap

    [filtered] copies the product array, filters the copy into new arrays
    and sorts the last one in place. Arrays are therefore kept in a heap,
    indexed by the order of their allocation. *)

Definition loc := nat.
Definition heap := list (list Product.t).

Definition M (A : Type) : Type := heap -> A * heap.

Definition ret {A} (a : A) : M A := fun h => (a, h).

Definition bind {A B} (m : M A) (k : A -> M B) : M B :=
  fun h => let (a, h') := m h in k a h'.

Notation "'do' x <- m ; k" := (bind m (fun x => k))
  (at level 10, x name, m at level 100, k at level 200).

Definition alloc (v : list Product.t) : M loc :=
  fun h => (length h, h ++ [v]).

Definition read (l : loc) : M (list Product.t) :=
  fun h => (default [] (h !! l), h).

Definition write (l : loc) (v : list Product.t) : M unit :=
  fun h => (tt, <[l := v]> h).

(** [[...arr]] *)
Definition spread (arr : loc) : M loc := do v <- read arr ; alloc v.

(** [arr.filter(f)]: a new array. *)
Definition array_filter (f : Product.t -> bool) (arr : loc) : M loc :=
  do v <- read arr ; alloc (List.filter f v).

(** [arr.sort(compareFn)]: the array itself, reordered. *)
Definition array_sortZ (compareFn : Product.t -> Product.t -> Z) (arr : loc) : M unit :=
  do v <- read arr ; write arr (sortZ compareFn v).

Definition array_sortQ (compareFn : Product.t -> Product.t -> Q) (arr : loc) : M unit :=
  do v <- read arr ; write arr (sortQ compareFn v).

(** [hc] extends [h], and holds [content] at [arr], an array allocated
    after [h]. *)
Definition extends (h : heap) (arr : loc) (content : list Product.t) (hc : heap) : Prop :=
  (exists ext, hc = h ++ ext) /\ hc !! arr = Some content /\ (length h <= arr)%nat.

(** ** The derived listing *)

(** The comparators [filtered] passes to [sort]. *)
Definition priceAsc (a b : Product.t) : Z := Product.priceINR a - Product.priceINR b.
Definition priceDesc (a b : Product.t) : Z := Product.priceINR b - Product.priceINR a.
Definition ratingDesc (a b : Product.t) : Q := (Product.rating b - Product.rating a)%Q.

Section Listing.
(** [String.prototype.toLowerCase] is a built-in whose case tables are
    not part of the program: the listing is defined for any such map. *)
Variable toLowerCase : jsstring -> jsstring.

Definition nameMatches (t : jsstring) (p : Product.t) : bool :=
  includes (toLowerCase (Product.name p)) t.

Definition categoryMatches (category : jsstring) (p : Product.t) : bool :=
  str_eq (Product.category p) category.

Definition filtered (products : loc) (q category sort : jsstring) : M loc :=
  do arr <- spread products ;
  do arr <- (if truthy (trim q)
             then let t := toLowerCase q in array_filter (nameMatches t) arr
             else ret arr) ;
  do arr <- (if negb (str_eq category (js "All"))
             then array_filter (categoryMatches category) arr
             else ret arr) ;
  do u <- (if str_eq sort (js "priceAsc")
           then array_sortZ priceAsc arr
           else if str_eq sort (js "priceDesc")
           then array_sortZ priceDesc arr
           else if str_eq sort (js "ratingDesc")
           then array_sortQ ratingDesc arr
           else ret tt) ;
  ret arr.

(** The contents of the array [filtered] returns, as a function of the
    contents of the product array (see [filtered_run]). *)
Definition byName (q : jsstring) (l : list Product.t) : list Product.t :=
  if truthy (trim q) then List.filter (nameMatches (toLowerCase q)) l else l.

Definition byCategory (category : jsstring) (l : list Product.t) : list Product.t :=
  if negb (str_eq category (js "All"))
  then List.filter (categoryMatches category) l else l.

Definition bySort (sort : jsstring) (l : list Product.t) : list Product.t :=
  if str_eq sort (js "priceAsc")
  then sortZ priceAsc l
  else if str_eq sort (js "priceDesc")
  then sortZ priceDesc l
  else if str_eq sort (js "ratingDesc")
  then sortQ ratingDesc l
  else l.

Definition deriveListing (products : list Product.t) (q category sort : jsstring)
  : list Product.t :=
  bySort sort (byCategory category (byName q products)).

(** The test a product passes to be listed: the two filters of
    [filtered] in one. *)
Definition keeps (q category : jsstring) (p : Product.t) : bool :=
  (negb (truthy (trim q)) || includes (toLowerCase (Product.name p)) (toLowerCase q))
  && (str_eq category (js "All") || str_eq (Product.category p) category).
End Listing.

(** ** Application state *)

Module Rfq.
(** The object the RFQ modal passes to [onSubmit]. *)
Record data := mkData {
  productId : jsstring;
  qty : Z;
  location : jsstring;
  target : jsstring;
  notes : jsstring
}.
(** [{ id, date, ...data }]; [data] has no [id] or [date] of its own. *)
Record t := mk { id : jsstring; date : jsstring; fields : data }.
End Rfq.

(** The [useState] cells of [App]. The product array is held by value
    here; [filtered] above is run in a heap that holds it. *)
Record state := mkState {
  page : jsstring;
  farmers : list Farmer.t;
  products : list Product.t;
  cartOpen : bool;
  cart : list CartLine.t;
  q : jsstring;
  category : jsstring;
  sort_key : jsstring;
  activeTab : jsstring;
  currency : jsstring;
  rfqProduct : option Product.t;
  rfqs : list Rfq.t
}.

Definition initialState : state :=
  mkState (js "Home") initialFarmers initialProducts false [] [] (js "All")
    (js "relevance") (js "Shop") (js "INR") None [].

Definition setProducts (f : list Product.t -> list Product.t) (st : state) : state :=
  mkState (page st) (farmers st) (f (products st)) (cartOpen st) (cart st) (q st)
    (category st) (sort_key st) (activeTab st) (currency st) (rfqProduct st) (rfqs st).

Definition setCartOpen (b : bool) (st : state) : state :=
  mkState (page st) (farmers st) (products st) b (cart st) (q st)
    (category st) (sort_key st) (activeTab st) (currency st) (rfqProduct st) (rfqs st).

Definition setCart (f : list CartLine.t -> list CartLine.t) (st : state) : state :=
  mkState (page st) (farmers st) (products st) (cartOpen st) (f (cart st)) (q st)
    (category st) (sort_key st) (activeTab st) (currency st) (rfqProduct st) (rfqs st).

Definition setActiveTab (t : jsstring) (st : state) : state :=
  mkState (page st) (farmers st) (products st) (cartOpen st) (cart st) (q st)
    (category st) (sort_key st) t (currency st) (rfqProduct st) (rfqs st).

Definition setRfqs (f : list Rfq.t -> list Rfq.t) (st : state) : state :=
  mkState (page st) (farmers st) (products st) (cartOpen st) (cart st) (q st)
    (category st) (sort_key st) (activeTab st) (currency st) (rfqProduct st) (f (rfqs st)).

(** What a handler shows with [alert]. The checkout message embeds
    [toCurrency(totalINR, currency)]; the event carries its two arguments. *)
Inductive alert :=
| DemoCheckoutSuccessful (totalINR : Z) (currency : jsstring)
| RFQSubmitted.

(** ** Cart handlers *)

(** [a || d] on numbers: [d] when [a] is 0. *)
Definition or_else (a d : Z) : Z := if a =? 0 then d else a.

Definition sameId (id : jsstring) (x : CartLine.t) : bool := str_eq (CartLine.id x) id.

(** The function [addToCart] passes to [setCart]. *)
Definition addToCart_next (p : Product.t) (prev : list CartLine.t) : list CartLine.t :=
  match List.find (sameId (Product.id p)) prev with
  | Some existing =>
      map (fun x => if sameId (Product.id p) x
                    then CartLine.mk (CartLine.product x) (CartLine.qty x + 1)
                    else x) prev
  | None => prev ++ [CartLine.mk p (Z.max 1 (or_else (Product.moq p) 1))]
  end.

Definition addToCart (p : Product.t) (st : state) : state :=
  setCartOpen true (setCart (addToCart_next p) st).

Definition setQty_next (id : jsstring) (qty : Z) (prev : list CartLine.t) : list CartLine.t :=
  map (fun x => if sameId id x then CartLine.mk (CartLine.product x) qty else x) prev.

Definition setQty (id : jsstring) (qty : Z) (st : state) : state :=
  setCart (setQty_next id qty) st.

Definition removeItem (id : jsstring) (st : state) : state :=
  setCart (List.filter (fun x => negb (sameId id x))) st.

(** [items.reduce((s, it) => s + it.priceINR * it.qty, 0)], the total of
    [CartDrawer] and of [checkout]. *)
Definition totalINR (items : list CartLine.t) : Z :=
  fold_left (fun s it => s + CartLine.priceINR it * CartLine.qty it) items 0.

Definition checkout (st : state) : alert * state :=
  let total := totalINR (cart st) in
  (DemoCheckoutSuccessful total (currency st),
   setCartOpen false (setCart (fun _ => []) st)).

(** ** RFQ handler *)

(** [s.slice(2)] *)
Definition slice2 (s : jsstring) : jsstring := drop 2 s.

(** [random36] is the text [Math.random().toString(36)] of this call and
    [now] the text [new Date().toISOString()]. *)
Definition submitRFQ (random36 now : jsstring) (data : Rfq.data) (st : state)
  : alert * state :=
  let rfq := Rfq.mk (slice2 random36) now data in
  (RFQSubmitted, setRfqs (fun prev => rfq :: prev) st).

(** One call of [submitRFQ] as the environment sees it. *)
Record submission := mkSubmission {
  sub_random36 : jsstring;
  sub_now : jsstring;
  sub_data : Rfq.data
}.

(** The calls of [calls], in order, from [st]. *)
Definition submitAll (calls : list submission) (st : state) : state :=
  fold_left (fun s c => snd (submitRFQ (sub_random36 c) (sub_now c) (sub_data c) s))
    calls st.

(** ** Farmer form *)

(** The value of [Number(field)]: not-a-number for text that is not
    numeric, else the integer written in the field (0 for the empty
    field). *)
Inductive number := NaN | Num (n : Z).

(** [Number(field) || d] *)
Definition num_or (v : number) (d : Z) : Z :=
  match v with
  | NaN => d
  | Num n => or_else n d
  end.

(** [s || d] on strings. *)
Definition str_or (s d : jsstring) : jsstring := if truthy s then s else d.

Module Form.
Record t := mk {
  name : jsstring;
  priceINR : number;
  stock : number;
  moq : number;
  category : jsstring;
  image : jsstring;
  farmerId : jsstring
}.
End Form.

(** [Math.floor(x * 0.95)] for an integer [x]: for prices up to 10^14
    (far above any price of the shop) the product in double precision has
    the integer part of [95 x / 100]. *)
Definition floor_095 (x : Z) : Z := (x * 95) / 100.

(** The product [handleSubmit] passes to [onSave]; [random36] is the text
    [Math.random().toString(36)] of this call. *)
Definition handleSubmit (random36 : jsstring) (form : Form.t) : Product.t :=
  Product.mk
    (slice2 random36)
    (str_or (Form.name form) (js "New Product"))
    (num_or (Form.priceINR form) 0)
    (num_or (Form.stock form) 0)
    (num_or (Form.moq form) 1)
    (Form.category form)
    (str_or (Form.image form)
       (js "https://images.unsplash.com/photo-1542838132-92c53300491e?q=80&w=1200&auto=format&fit=crop"))
    (Form.farmerId form)
    4.6
    [ Tier.mk (num_or (Form.moq form) 1)
        (Z.max 1 (floor_095 (num_or (Form.priceINR form) 1))) ].

Definition saveProduct (newP : Product.t) (st : state) : state :=
  setActiveTab (js "Shop") (setProducts (fun prev => newP :: prev) st).

(** ** Tier schedules *)

(** Thresholds ascend, and every tier price is at most the price before
    it; [prev] is the base price at the head of the list. *)
Fixpoint tiers_ok (prev : Z) (last_min : option Z) (tiers : list Tier.t) : bool :=
  match tiers with
  | [] => true
  | t :: rest =>
      (Tier.priceINR t <=? prev)
      && match last_min with
         | None => true
         | Some m => m <=? Tier.min t
         end
      && tiers_ok (Tier.priceINR t) (Some (Tier.min t)) rest
  end.

Definition tier_schedule_ok (p : Product.t) : bool :=
  forallb (fun t => Tier.priceINR t <=? Product.priceINR p) (Product.bulkTiers p)
  && tiers_ok (Product.priceINR p) None (Product.bulkTiers p).

(** Modelled from the spec: [unitPriceFor] is not defined in [App.jsx]
    (the tiers are only displayed, by [BulkBadges]). The specification
    describes it as a scan of the tier list that returns the unit price
    of the tier with the greatest threshold not exceeding the quantity,
    and the base price when no tier qualifies. *)
Definition better (quantity : Z) (best : option Tier.t) (t : Tier.t) : option Tier.t :=
  if Tier.min t <=? quantity
  then match best with
       | None => Some t
       | Some b => if Tier.min b <? Tier.min t then Some t else best
       end
  else best.

Definition unitPriceFor (p : Product.t) (quantity : Z) : Z :=
  match fold_left (better quantity) (Product.bulkTiers p) None with
  | Some t => Tier.priceINR t
  | None => Product.priceINR p
  end.

(** ** Cart drawer

    The buttons of a cart line [it] call the handlers with values made
    from the line: [onQty(it.id, Math.max(1, it.qty - 1))],
    [onQty(it.id, it.qty + 1)] and [onRemove(it.id)]. *)

Definition onMinus (it : CartLine.t) (st : state) : state :=
  setQty (CartLine.id it) (Z.max 1 (CartLine.qty it - 1)) st.

Definition onPlus (it : CartLine.t) (st : state) : state :=
  setQty (CartLine.id it) (CartLine.qty it + 1) st.

Definition onRemove (it : CartLine.t) (st : state) : state :=
  removeItem (CartLine.id it) st.

(** What the buyer can click: "Add" on a product card, the three buttons
    of the cart line shown at position [i], and "Proceed to Checkout". *)
Inductive click :=
| ClickAdd (p : Product.t)
| ClickMinus (i : nat)
| ClickPlus (i : nat)
| ClickRemove (i : nat)
| ClickCheckout.

(** A line button exists only for a line of the cart. *)
Definition on_line (i : nat) (f : CartLine.t -> state -> state) (st : state) : state :=
  match cart st !! i with
  | Some it => f it st
  | None => st
  end.

(** The checkout button is disabled while the cart is empty. *)
Definition click_step (st : state) (c : click) : state :=
  match c with
  | ClickAdd p => addToCart p st
  | ClickMinus i => on_line i onMinus st
  | ClickPlus i => on_line i onPlus st
  | ClickRemove i => on_line i onRemove st
  | ClickCheckout =>
      match cart st with
      | [] => st
      | _ :: _ => snd (checkout st)
      end
  end.

Definition clicks (cs : list click) (st : state) : state := fold_left click_step cs st.

(** [cartCount] of the header: [cart.length]. *)
Definition cartCount (st : state) : nat := length (cart st).

(** ** Calls of the handlers *)

Inductive action :=
| AddToCart (p : Product.t)
| SetQty (id : jsstring) (qty : Z)
| RemoveItem (id : jsstring)
| Checkout
| SubmitRFQ (c : submission)
| SaveProduct (random36 : jsstring) (form : Form.t).

Definition step (st : state) (a : action) : state :=
  match a with
  | AddToCart p => addToCart p st
  | SetQty id qty => setQty id qty st
  | RemoveItem id => removeItem id st
  | Checkout => snd (checkout st)
  | SubmitRFQ c => snd (submitRFQ (sub_random36 c) (sub_now c) (sub_data c) st)
  | SaveProduct random36 form => saveProduct (handleSubmit random36 form) st
  end.

Definition run (acts : list action) (st : state) : state := fold_left step acts st.

(** The products the form calls of [acts] build, in the order of the calls. *)
Fixpoint saved (acts : list action) : list Product.t :=
  match acts with
  | [] => []
  | SaveProduct random36 form :: rest => handleSubmit random36 form :: saved rest
  | _ :: rest => saved rest
  end.

(** The requests the [submitRFQ] calls of [acts] add, in the order of the
    calls. *)
Fixpoint submitted (acts : list action) : list Rfq.t :=
  match acts with
  | [] => []
  | SubmitRFQ c :: rest =>
      Rfq.mk (slice2 (sub_random36 c)) (sub_now c) (sub_data c) :: submitted rest
  | _ :: rest => submitted rest
  end.

(** ** Badges and dashboards *)

(** The tiers [BulkBadges] shows: [tiers.slice(0,3)]. *)
Definition BulkBadges (tiers : list Tier.t) : list Tier.t := take 3 tiers.

(** What every product of the catalog has, besides its schedule: a name,
    a MOQ that is not 0, and between one and three tiers of which the
    first starts at the MOQ. *)
Definition listed_ok (p : Product.t) : Prop :=
  Product.name p <> []
  /\ Product.moq p <> 0
  /\ (exists t rest, Product.bulkTiers p = t :: rest /\ Tier.min t = Product.moq p)
  /\ (length (Product.bulkTiers p) <= 3)%nat
  /\ Sorted (fun a b => Tier.min a <= Tier.min b) (Product.bulkTiers p)
  /\ Sorted (fun a b => Tier.priceINR b <= Tier.priceINR a) (Product.bulkTiers p).

(** The products of the "Your Products" panel:
    [products.filter((p) => p.farmerId === farmers[0].id)]. With no
    farmer, [farmers[0].id] throws; that is [None]. *)
Definition yourProducts (st : state) : option (list Product.t) :=
  match farmers st with
  | [] => None
  | f0 :: _ =>
      Some (List.filter (fun p => str_eq (Product.farmerId p) (Farmer.id f0)) (products st))
  end.

(** The dashboard panels that are rendered: the buyer's for the tab
    "Buyer Dashboard", the farmer's (with the form) for "Farmer Dashboard". *)
Definition buyerPanel (st : state) : bool := str_eq (activeTab st) (js "Buyer Dashboard").
Definition farmerPanel (st : state) : bool := str_eq (activeTab st) (js "Farmer Dashboard").

(** ** Farmers by identifier *)

(** [Object.fromEntries(farmers.map((f) => [f.id, f]))]: the own
    properties of the object, a later entry replacing an earlier one of
    the same key. (A key that is no own property is looked up in
    [Object.prototype]; that is not modelled.) *)
Definition farmersById (farmers : list Farmer.t) : gmap jsstring Farmer.t :=
  fold_left (fun m f => <[Farmer.id f := f]> m) farmers ∅.

(** ** RFQ modal *)

(** The four [useState] cells of [RFQModal]. *)
Module Modal.
Record t := mk { qty : Z; location : jsstring; target : jsstring; notes : jsstring }.
End Modal.

Definition setRfqProduct (p : option Product.t) (st : state) : state :=
  mkState (page st) (farmers st) (products st) (cartOpen st) (cart st) (q st)
    (category st) (sort_key st) (activeTab st) (currency st) p (rfqs st).

(** "Bulk" on a product card: [setRfqProduct(prod)]; the effect of the
    modal on the new product then resets its fields. *)
Definition openBulk (p : Product.t) (st : state) : Modal.t * state :=
  (Modal.mk (Product.moq p) [] [] [], setRfqProduct (Some p) st).

(** "Send RFQ": [onSubmit({ productId: product.id, qty, location, target,
    notes }); onClose()]. The button is rendered only while a product is
    selected. *)
Definition sendRFQ (random36 now : jsstring) (m : Modal.t) (st : state)
  : option (alert * state) :=
  match rfqProduct st with
  | None => None
  | Some product =>
      let data := Rfq.mkData (Product.id product) (Modal.qty m) (Modal.location m)
                    (Modal.target m) (Modal.notes m) in
      let (shown, st') := submitRFQ random36 now data st in
      Some (shown, setRfqProduct None st')
  end.

(** ** [classNames] *)

(** The arguments the components pass: a string, [false] (from
    [cond && "..."]) or [undefined] (a prop that was not given). *)
Inductive classArg :=
| ClsStr (s : jsstring)
| ClsFalse
| ClsUndefined.

(** [Boolean(arg)] *)
Definition Boolean (a : classArg) : bool :=
  match a with
  | ClsStr s => truthy s
  | ClsFalse | ClsUndefined => false
  end.

(** The text [join] writes for an element. *)
Definition arg_text (a : classArg) : jsstring :=
  match a with
  | ClsStr s => s
  | ClsFalse => js "false"
  | ClsUndefined => []
  end.

(** [arr.join(" ")] *)
Fixpoint join (l : list classArg) : jsstring :=
  match l with
  | [] => []
  | [a] => arg_text a
  | a :: rest => arg_text a ++ js " " ++ join rest
  end.

Definition classNames (args : list classArg) : jsstring := join (List.filter Boolean args).

(** ** 3D viewer with fallback *)

Module Viewer.
(** The two [useState] cells of [ModelViewerWrapper]. *)
Record t := mk { scriptLoaded : bool; error : bool }.

Definition initial : t := mk false false.

(** The callbacks that set them: [s.onload] (or the script found already
    present), [s.onerror], and the [error] listener of the element. *)
Inductive event := ScriptOnload | ScriptPresent | ScriptOnerror | ElementError.

Definition handle (st : t) (ev : event) : t :=
  match ev with
  | ScriptOnload | ScriptPresent => mk true (error st)
  | ScriptOnerror | ElementError => mk (scriptLoaded st) true
  end.

Definition handleAll (evs : list event) (st : t) : t := fold_left handle evs st.

Inductive view := FallbackImage | LoadingPlaceholder | ModelViewer.

Definition render (st : t) : view :=
  if error st then FallbackImage
  else if negb (scriptLoaded st) then LoadingPlaceholder
  else ModelViewer.

Definition isError (ev : event) : bool :=
  match ev with
  | ScriptOnerror | ElementError => true
  | ScriptOnload | ScriptPresent => false
  end.
End Viewer.

(** ** Definitions used by the statements *)

(** The identifiers of the lines of a cart. *)
Definition ids (c : list CartLine.t) : list jsstring := map CartLine.id c.

(** The total as a sum over the lines. *)
Definition lineAmount (it : CartLine.t) : Z := CartLine.priceINR it * CartLine.qty it.

(** A line whose tier list has been replaced by [g] of it. *)
Definition retier (g : list Tier.t -> list Tier.t) (it : CartLine.t) : CartLine.t :=
  let p := CartLine.product it in
  CartLine.mk
    (Product.mk (Product.id p) (Product.name p) (Product.priceINR p) (Product.stock p)
       (Product.moq p) (Product.category p) (Product.image p) (Product.farmerId p)
       (Product.rating p) (g (Product.bulkTiers p)))
    (CartLine.qty it).

(** The invariant of the data model: thresholds ascend along the list,
    every tier price is at most the base price, and prices do not rise
    from a tier to the next. *)
Definition TierSchedule (p : Product.t) : Prop :=
  Sorted (fun a b => Tier.min a <= Tier.min b) (Product.bulkTiers p)
  /\ Forall (fun t => Tier.priceINR t <= Product.priceINR p) (Product.bulkTiers p)
  /\ Sorted (fun a b => Tier.priceINR b <= Tier.priceINR a) (Product.bulkTiers p).

(** The form as it is submitted with "0" in the price field, which the
    field allows ([min={0}]). *)
Definition zeroPriceForm : Form.t :=
  Form.mk (js "Spinach") (Num 0) (Num 50) (Num 10) (js "Vegetables") [] (js "f1").

(** The request a call adds. *)
Definition rfq_of (c : submission) : Rfq.t :=
  Rfq.mk (slice2 (sub_random36 c)) (sub_now c) (sub_data c).

Definition sampleData : Rfq.data :=
  Rfq.mkData (js "p2") 500 (js "Pune") [] [].

(** [lte] read as a relation. *)
Definition ordered {A} (lte : A -> A -> bool) (a b : A) : Prop := lte a b = true.

(** * Properties *)

(** ** Cart *)

Lemma str_eq_refl (a : jsstring) : str_eq a a = true.
Proof. unfold str_eq. by apply bool_decide_eq_true. Qed.

Lemma str_eq_true (a b : jsstring) : str_eq a b = true <-> a = b.
Proof. unfold str_eq. apply bool_decide_eq_true. Qed.

Lemma str_eq_false (a b : jsstring) : str_eq a b = false <-> a <> b.
Proof. unfold str_eq. apply bool_decide_eq_false. Qed.

Lemma max_or_else (m : Z) : Z.max 1 (or_else m 1) = Z.max 1 m.
Proof. unfold or_else. destruct (Z.eqb_spec m 0); lia. Qed.

Lemma find_absent {A} (f : A -> bool) (l : list A) :
  List.find f l = None <-> Forall (fun x => f x = false) l.
Proof.
  induction l as [|x l IH]; simpl.
  - split; [constructor | done].
  - destruct (f x) eqn:E.
    + split; [done | intros H; inversion H; congruence].
    + rewrite IH. split; [by constructor | by inversion 1].
Qed.

Lemma find_app_absent {A} (f : A -> bool) (l : list A) (x : A) :
  List.find f l = None -> f x = true -> List.find f (l ++ [x]) = Some x.
Proof.
  induction l as [|y l IH]; simpl; intros Hl Hx.
  - by rewrite Hx.
  - destruct (f y); [done | by apply IH].
Qed.

Lemma filter_absent {A} (f : A -> bool) (l : list A) :
  Forall (fun x => f x = false) l -> List.filter f l = [].
Proof.
  induction 1 as [|x l Hx _ IH]; simpl; [done | by rewrite Hx].
Qed.

Lemma map_absent {A} (f : A -> bool) (g : A -> A) (l : list A) :
  Forall (fun x => f x = false) l -> map (fun x => if f x then g x else x) l = l.
Proof.
  induction 1 as [|x l Hx _ IH]; simpl; [done | by rewrite Hx, IH].
Qed.

Lemma addToCart_next_absent (p : Product.t) (c : list CartLine.t) :
  List.find (sameId (Product.id p)) c = None ->
  addToCart_next p c = c ++ [CartLine.mk p (Z.max 1 (Product.moq p))].
Proof.
  intros H. unfold addToCart_next. by rewrite H, max_or_else.
Qed.

Lemma addToCart_next_present (p : Product.t) (c : list CartLine.t) (x : CartLine.t) :
  List.find (sameId (Product.id p)) c = None ->
  CartLine.id x = Product.id p ->
  addToCart_next p (c ++ [x])
  = c ++ [CartLine.mk (CartLine.product x) (CartLine.qty x + 1)].
Proof.
  intros H Hx.
  assert (Hs : sameId (Product.id p) x = true) by (by apply str_eq_true).
  unfold addToCart_next. rewrite (find_app_absent _ _ _ H Hs).
  rewrite map_app. simpl. rewrite Hs. f_equal.
  apply (map_absent (sameId (Product.id p))
           (fun x => CartLine.mk (CartLine.product x) (CartLine.qty x + 1))).
  by apply find_absent.
Qed.

(** C1, as the code has it. Adding a product that the cart does not hold
    and adding it again leaves the earlier lines as they were and exactly
    one line for the product, at the end of the cart; its quantity is
    [max(1, moq) + 1]: the first add starts the line at [max(1, moq)] and
    the second adds one. *)
Theorem addToCart_twice_one_line (p : Product.t) (st : state) :
  List.find (sameId (Product.id p)) (cart st) = None ->
  let line := CartLine.mk p (Z.max 1 (Product.moq p) + 1) in
  let st2 := addToCart p (addToCart p st) in
  cart st2 = cart st ++ [line]
  /\ List.filter (sameId (Product.id p)) (cart st2) = [line].
Proof.
  intros H line st2.
  assert (E : cart st2 = cart st ++ [line]).
  { subst st2. simpl. rewrite (addToCart_next_absent _ _ H).
    by rewrite (addToCart_next_present _ _ _ H). }
  split; [exact E |].
  rewrite E, List.filter_app. simpl.
  rewrite filter_absent by (by apply find_absent).
  unfold sameId, CartLine.id. simpl. by rewrite str_eq_refl.
Qed.

Lemma addToCart_twice_one_line_witness :
  List.filter (sameId (js "p2")) (cart (addToCart tomatoes (addToCart tomatoes initialState)))
  = [CartLine.mk tomatoes 101].
Proof.
  exact (proj2 (addToCart_twice_one_line tomatoes initialState eq_refl)).
Defined.

(** C1 as stated fails: after the tomatoes (MOQ 100) are added twice to
    the empty cart, the one line for them has quantity 101, not 2. *)
Lemma addToCart_twice_qty_not_2 :
  map CartLine.qty
    (List.filter (sameId (Product.id tomatoes))
       (cart (addToCart tomatoes (addToCart tomatoes initialState)))) = [101]
  /\ ~ (forall (p : Product.t) (st : state),
          List.find (sameId (Product.id p)) (cart st) = None ->
          map CartLine.qty
            (List.filter (sameId (Product.id p))
               (cart (addToCart p (addToCart p st)))) = [2]).
Proof.
  split; [reflexivity |].
  intros H. specialize (H tomatoes initialState eq_refl). vm_compute in H. discriminate H.
Qed.

Lemma fold_left_total (items : list CartLine.t) (s : Z) :
  fold_left (fun s it => s + CartLine.priceINR it * CartLine.qty it) items s
  = s + foldr Z.add 0 (map lineAmount items).
Proof.
  revert s. induction items as [|it items IH]; intros s; simpl.
  - lia.
  - rewrite IH. unfold lineAmount. lia.
Qed.

Lemma totalINR_sum (items : list CartLine.t) :
  totalINR items = foldr Z.add 0 (map lineAmount items).
Proof. unfold totalINR. rewrite fold_left_total. lia. Qed.

(** C4. The cart total is the sum over the lines of the price held by the
    line times its quantity. The tiers of a line do not enter it, nor does
    the catalog, whatever becomes of it after the line was added. After one
    add to the empty cart the total is the base price times [max(1, moq)];
    for the tomatoes that is one line of 100 and a total of 8900. *)
Theorem cart_total_base_price :
  (forall items, totalINR items = foldr Z.add 0 (map lineAmount items))
  /\ (forall g items, totalINR (map (retier g) items) = totalINR items)
  /\ (forall f st, totalINR (cart (setProducts f st)) = totalINR (cart st))
  /\ (forall p, addToCart_next p [] = [CartLine.mk p (Z.max 1 (Product.moq p))]
                /\ totalINR (addToCart_next p [])
                   = Product.priceINR p * Z.max 1 (Product.moq p))
  /\ cart (addToCart tomatoes initialState) = [CartLine.mk tomatoes 100]
  /\ totalINR (cart (addToCart tomatoes initialState)) = 8900.
Proof.
  split; [exact totalINR_sum |].
  split.
  { intros g items. rewrite !totalINR_sum, map_map. f_equal. }
  split; [done |].
  split; [| by split].
  intros p. rewrite (addToCart_next_absent p [] eq_refl). split; [done |].
  unfold totalINR, CartLine.priceINR. simpl. lia.
Qed.

(** C5. [checkout] has one outcome for every state, the empty cart
    included: the success alert, which carries the sum over the lines of
    the cart as it was of price times quantity, in the currency selected,
    and a state whose cart is empty, whose total is 0 and whose cart drawer
    is closed; the rest of the state is as before. For the cart that holds
    the tomatoes at their MOQ the alert carries 8900. *)
Theorem checkout_unconditional (st : state) :
  (let (shown, st') := checkout st in
   shown = DemoCheckoutSuccessful
             (foldr Z.add 0
                (map (fun it => Product.priceINR (CartLine.product it) * CartLine.qty it)
                   (cart st)))
             (currency st)
   /\ cart st' = []
   /\ foldr Z.add 0
        (map (fun it => Product.priceINR (CartLine.product it) * CartLine.qty it) (cart st'))
      = 0
   /\ totalINR (cart st') = 0
   /\ cartOpen st' = false
   /\ products st' = products st
   /\ rfqs st' = rfqs st)
  /\ fst (checkout initialState) = DemoCheckoutSuccessful 0 (js "INR")
  /\ fst (checkout (addToCart tomatoes initialState)) = DemoCheckoutSuccessful 8900 (js "INR")
  /\ fst (checkout (addToCart milk (addToCart tomatoes initialState)))
     = DemoCheckoutSuccessful 23900 (js "INR").
Proof.
  split; [| by repeat split].
  unfold checkout. rewrite totalINR_sum. repeat split.
Qed.

Lemma setQty_next_lookup (id : jsstring) (qty : Z) (c : list CartLine.t) (i : nat) :
  setQty_next id qty c !! i
  = (fun x => if sameId id x then CartLine.mk (CartLine.product x) qty else x) <$> c !! i.
Proof. unfold setQty_next. apply list_lookup_fmap. Qed.

(** C9. For a cart with a line [x] of identifier [id] at position [i] and
    any integer [qty], positive or not, [setQty id qty] yields a cart of
    the same length whose line at [i] is [x] with quantity [qty]; lines
    with another identifier stay as they are. *)
Theorem setQty_verbatim (st : state) (id : jsstring) (qty : Z) (i : nat) (x : CartLine.t) :
  cart st !! i = Some x ->
  CartLine.id x = id ->
  let st' := setQty id qty st in
  cart st' !! i = Some (CartLine.mk (CartLine.product x) qty)
  /\ length (cart st') = length (cart st)
  /\ (forall j y, cart st !! j = Some y -> CartLine.id y <> id -> cart st' !! j = Some y).
Proof.
  intros Hx Hid st'. subst st'. simpl. repeat split.
  - rewrite setQty_next_lookup, Hx. simpl.
    unfold sameId. rewrite Hid. by rewrite str_eq_refl.
  - unfold setQty_next. apply length_map.
  - intros j y Hy Hne. rewrite setQty_next_lookup, Hy. simpl.
    unfold sameId. by rewrite (proj2 (str_eq_false _ _) Hne).
Qed.

Lemma setQty_verbatim_witness :
  cart (setQty (js "p2") (-3) (addToCart tomatoes initialState)) !! 0%nat
  = Some (CartLine.mk tomatoes (-3)).
Proof.
  exact (proj1 (setQty_verbatim (addToCart tomatoes initialState) (js "p2") (-3) 0
                  (CartLine.mk tomatoes 100) eq_refl eq_refl)).
Defined.

(** ** Pricing *)

(** What the scan holds after [l], from the candidate [best]. *)
Lemma scan_tiers (quantity : Z) (l : list Tier.t) (best : option Tier.t) :
  (forall b, best = Some b -> Tier.min b <= quantity) ->
  match fold_left (better quantity) l best with
  | None => best = None /\ Forall (fun t => quantity < Tier.min t) l
  | Some t =>
      (best = Some t \/ In t l)
      /\ Tier.min t <= quantity
      /\ (forall b, best = Some b -> Tier.min b <= Tier.min t)
      /\ Forall (fun t' => Tier.min t' <= quantity -> Tier.min t' <= Tier.min t) l
  end.
Proof.
  revert best. induction l as [|t0 l IH]; intros best Hbest; simpl.
  - destruct best as [b|]; [| by split].
    repeat split; [by left | by apply Hbest | | constructor].
    intros b' [= ->]. lia.
  - assert (Hnext : forall b, better quantity best t0 = Some b -> Tier.min b <= quantity).
    { unfold better. intros b. destruct (Z.leb_spec (Tier.min t0) quantity).
      - destruct best as [b0|].
        + destruct (Tier.min b0 <? Tier.min t0); intros [= <-]; [done | by apply Hbest].
        + by intros [= <-].
      - apply Hbest. }
    specialize (IH _ Hnext).
    destruct (fold_left (better quantity) l (better quantity best t0)) as [t|].
    + destruct IH as (Hin & Hle & Hmax & Hall).
      assert (Ht0 : Tier.min t0 <= quantity -> Tier.min t0 <= Tier.min t).
      { intros H0. unfold better in Hmax.
        destruct (Z.leb_spec (Tier.min t0) quantity); [| lia].
        destruct best as [b0|].
        - destruct (Z.ltb_spec (Tier.min b0) (Tier.min t0)).
          + by apply Hmax.
          + specialize (Hmax b0 eq_refl). lia.
        - by apply Hmax. }
      repeat split.
      * destruct Hin as [Hin | Hin]; [| by right; right].
        unfold better in Hin.
        destruct (Tier.min t0 <=? quantity); [| by left].
        destruct best as [b0|].
        -- destruct (Tier.min b0 <? Tier.min t0).
           ++ injection Hin as ->. right. by left.
           ++ by left.
        -- injection Hin as ->. right. by left.
      * exact Hle.
      * intros b ->. unfold better in Hmax.
        destruct (Z.leb_spec (Tier.min t0) quantity).
        -- destruct (Z.ltb_spec (Tier.min b) (Tier.min t0)).
           ++ specialize (Hmax t0 eq_refl). lia.
           ++ by apply Hmax.
        -- by apply Hmax.
      * by constructor.
    + destruct IH as (Hnone & Hall). unfold better in Hnone.
      destruct (Z.leb_spec (Tier.min t0) quantity).
      * destruct best as [b0|]; [destruct (Tier.min b0 <? Tier.min t0) |]; discriminate.
      * split; [done | by constructor].
Qed.

(** C2. [unitPriceFor] returns the base price when the quantity is below
    every threshold, and otherwise the price of a tier whose threshold is
    at most the quantity and is the greatest such threshold of the list;
    for the tomatoes, 84 at quantity 300 and 89 at quantity 50. *)
Theorem unitPriceFor_greatest_tier :
  (forall p quantity,
      match List.filter (fun t => Tier.min t <=? quantity) (Product.bulkTiers p) with
      | [] => unitPriceFor p quantity = Product.priceINR p
      | _ :: _ =>
          exists t, In t (Product.bulkTiers p)
                    /\ Tier.min t <= quantity
                    /\ Forall (fun t' => Tier.min t' <= quantity -> Tier.min t' <= Tier.min t)
                         (Product.bulkTiers p)
                    /\ unitPriceFor p quantity = Tier.priceINR t
      end)
  /\ Product.priceINR tomatoes = 89
  /\ Product.bulkTiers tomatoes = [Tier.mk 100 84; Tier.mk 500 80; Tier.mk 2500 76]
  /\ unitPriceFor tomatoes 300 = 84
  /\ unitPriceFor tomatoes 50 = 89.
Proof.
  split; [| by repeat split].
  intros p quantity. unfold unitPriceFor.
  pose proof (scan_tiers quantity (Product.bulkTiers p) None) as H.
  specialize (H ltac:(discriminate)).
  destruct (List.filter _ _) as [|t1 ts] eqn:Ef.
  - destruct (fold_left _ _ _) as [t|]; [| done].
    destruct H as ([H | Hin] & Hle & _); [discriminate |].
    assert (Hf : In t (List.filter (fun t => Tier.min t <=? quantity) (Product.bulkTiers p))).
    { apply List.filter_In. split; [done | by apply Z.leb_le]. }
    rewrite Ef in Hf. destruct Hf.
  - destruct (fold_left _ _ _) as [t|].
    + destruct H as ([H | Hin] & Hle & _ & Hall); [discriminate |].
      by exists t.
    + destruct H as (_ & Hall).
      assert (Hf : In t1 (List.filter (fun t => Tier.min t <=? quantity) (Product.bulkTiers p))).
      { rewrite Ef. by left. }
      apply List.filter_In in Hf as [Hin Hle]. apply Z.leb_le in Hle.
      rewrite List.Forall_forall in Hall. specialize (Hall _ Hin). simpl in Hall. lia.
Qed.

(** ** Tier schedules of the catalog *)

Lemma tiers_ok_sorted (prev : Z) (last_min : option Z) (tiers : list Tier.t) :
  tiers_ok prev last_min tiers = true ->
  Sorted (fun a b => Tier.min a <= Tier.min b) tiers
  /\ Sorted (fun a b => Tier.priceINR b <= Tier.priceINR a) tiers
  /\ (forall t, head tiers = Some t ->
        Tier.priceINR t <= prev /\ forall m, last_min = Some m -> m <= Tier.min t).
Proof.
  revert prev last_min. induction tiers as [|t rest IH]; intros prev last_min; simpl.
  - intros _. repeat split; try constructor; discriminate.
  - intros H. apply andb_true_iff in H as [H Hrest]. apply andb_true_iff in H as [Hp Hm].
    apply Z.leb_le in Hp.
    destruct (IH _ _ Hrest) as (Smin & Sprice & Hhead).
    split; [| split].
    + constructor; [done |].
      destruct rest as [|t' rest']; constructor.
      by apply (Hhead t' eq_refl).
    + constructor; [done |].
      destruct rest as [|t' rest']; constructor.
      by apply (Hhead t' eq_refl).
    + intros t0 [= <-]. split; [done |].
      intros m ->. by apply Z.leb_le.
Qed.

Lemma tier_schedule_ok_sound (p : Product.t) :
  tier_schedule_ok p = true -> TierSchedule p.
Proof.
  unfold tier_schedule_ok, TierSchedule. intros H.
  apply andb_true_iff in H as [Hall Hok].
  destruct (tiers_ok_sorted _ _ _ Hok) as (Smin & Sprice & _).
  repeat split; [done | | done].
  apply List.Forall_forall. intros t Ht.
  rewrite forallb_forall in Hall. apply Z.leb_le. by apply Hall.
Qed.

Lemma tier_schedule_ok_complete (p : Product.t) :
  TierSchedule p -> forallb (fun t => Tier.priceINR t <=? Product.priceINR p)
                      (Product.bulkTiers p) = true.
Proof.
  intros (_ & Hall & _). apply forallb_forall. intros t Ht.
  rewrite List.Forall_forall in Hall. apply Z.leb_le. by apply Hall.
Qed.

(** The five products of the initial catalog keep the invariant. *)
Lemma initialProducts_schedules : Forall TierSchedule initialProducts.
Proof.
  unfold initialProducts.
  repeat (apply List.Forall_cons; [by apply tier_schedule_ok_sound |]).
  apply List.Forall_nil.
Qed.

(** So does a product made by the form from a price of at least 1. *)
Lemma handleSubmit_schedule (random36 : jsstring) (form : Form.t) (n : Z) :
  Form.priceINR form = Num n -> 1 <= n -> TierSchedule (handleSubmit random36 form).
Proof.
  intros Hp Hn. apply tier_schedule_ok_sound.
  unfold tier_schedule_ok, handleSubmit. simpl. rewrite Hp. simpl.
  unfold or_else, floor_095. destruct (Z.eqb_spec n 0); [lia |].
  assert (n * 95 / 100 <= n) by (apply Z.div_le_upper_bound; lia).
  rewrite !andb_true_r. apply andb_true_iff. split; apply Z.leb_le; lia.
Qed.

(** C3 fails on the code. For a price of 0 the form builds a product of
    base price 0 whose single tier costs 1: the base price defaults with
    [|| 0] and the tier price with [|| 1] under [Math.max(1, ...)].
    [saveProduct] puts that product at the head of the catalog. *)
Theorem handleSubmit_zero_price_breaks_schedule :
  let p := handleSubmit (js "0.k3j9x2") zeroPriceForm in
  Product.priceINR p = 0
  /\ Product.bulkTiers p = [Tier.mk 10 1]
  /\ tier_schedule_ok p = false
  /\ ~ TierSchedule p
  /\ products (saveProduct p initialState) = p :: initialProducts.
Proof.
  repeat split.
  intros H. apply tier_schedule_ok_complete in H. discriminate H.
Qed.

(** ** Requests for quotation *)

Lemma submitAll_rfqs (calls : list submission) (st : state) :
  rfqs (submitAll calls st) = rev (map rfq_of calls) ++ rfqs st.
Proof.
  unfold submitAll. revert st. induction calls as [|c calls IH]; intros st; simpl.
  - done.
  - rewrite IH. simpl. by rewrite <- app_assoc.
Qed.

Lemma NoDup_rev_iff {A} (l : list A) : List.NoDup (rev l) <-> List.NoDup l.
Proof.
  split; intros H.
  - rewrite <- (rev_involutive l). by apply List.NoDup_rev.
  - by apply List.NoDup_rev.
Qed.

(** C7, as the code has it. From an empty list, [N] calls leave [N]
    requests, the latest first, and one more call puts its request at the
    head. The identifier of a request is the text
    [Math.random().toString(36)] of its call without the first two units:
    the identifiers are pairwise distinct exactly when these texts are,
    and nothing in the handler makes them so. *)
Theorem submitRFQ_newest_first (st : state) (calls : list submission) :
  rfqs st = [] ->
  let st' := submitAll calls st in
  rfqs st' = rev (map rfq_of calls)
  /\ length (rfqs st') = length calls
  /\ map Rfq.id (rfqs st') = rev (map (fun c => slice2 (sub_random36 c)) calls)
  /\ (List.NoDup (map Rfq.id (rfqs st'))
      <-> List.NoDup (map (fun c => slice2 (sub_random36 c)) calls))
  /\ (forall c, rfqs (submitAll (calls ++ [c]) st) = rfq_of c :: rfqs st').
Proof.
  intros Hst st'.
  assert (E : rfqs st' = rev (map rfq_of calls)).
  { subst st'. rewrite submitAll_rfqs, Hst. by rewrite app_nil_r. }
  assert (Eid : map Rfq.id (rfqs st') = rev (map (fun c => slice2 (sub_random36 c)) calls)).
  { by rewrite E, map_rev, map_map. }
  split; [exact E |].
  split; [by rewrite E, length_rev, length_map |].
  split; [exact Eid |].
  split; [rewrite Eid; apply NoDup_rev_iff |].
  intros c. rewrite submitAll_rfqs, E, Hst, map_app, rev_app_distr. simpl.
  by rewrite app_nil_r.
Qed.

Lemma submitRFQ_newest_first_witness :
  rfqs initialState = []
  /\ map Rfq.id
       (rfqs (submitAll
                [ mkSubmission (js "0.k3j9x2") (js "2024-01-01T00:00:00.000Z") sampleData;
                  mkSubmission (js "0.8fq1zr") (js "2024-01-01T00:00:05.000Z") sampleData ]
                initialState))
     = [js "8fq1zr"; js "k3j9x2"].
Proof.
  split; [reflexivity |].
  exact (proj1 (proj2 (proj2 (submitRFQ_newest_first initialState
    [ mkSubmission (js "0.k3j9x2") (js "2024-01-01T00:00:00.000Z") sampleData;
      mkSubmission (js "0.8fq1zr") (js "2024-01-01T00:00:05.000Z") sampleData ]
    eq_refl)))).
Defined.

(** C7 as stated fails: two calls in which [Math.random] yields the same
    number leave two requests with one identifier. *)
Lemma submitRFQ_ids_may_repeat :
  let calls := [ mkSubmission (js "0.k3j9x2") (js "2024-01-01T00:00:00.000Z") sampleData;
                 mkSubmission (js "0.k3j9x2") (js "2024-01-01T00:00:05.000Z") sampleData ] in
  map Rfq.id (rfqs (submitAll calls initialState)) = [js "k3j9x2"; js "k3j9x2"]
  /\ ~ List.NoDup (map Rfq.id (rfqs (submitAll calls initialState))).
Proof.
  split; [reflexivity |].
  intros H. inversion H as [|x l Hnotin _]; subst. apply Hnotin. by left.
Qed.

(** ** Sorting *)

Section SortFacts.
Context {A : Type} (lte : A -> A -> bool).
(** The comparator orders any two elements one way or the other. *)
Hypothesis lte_total : forall x y, lte x y = false -> lte y x = true.

Lemma insert_perm (x : A) (l : list A) : Permutation (insert lte x l) (x :: l).
Proof.
  induction l as [|y l IH]; simpl; [done |].
  destruct (lte x y); [done |].
  rewrite IH. apply perm_swap.
Qed.

Lemma sort_perm (l : list A) : Permutation (sort lte l) l.
Proof.
  induction l as [|x l IH]; simpl; [done |].
  rewrite insert_perm. by constructor.
Qed.

Lemma insert_sorted (x : A) (l : list A) : Sorted (ordered lte) l -> Sorted (ordered lte) (insert lte x l).
Proof.
  induction l as [|y l IH]; simpl; intros Hl.
  - by repeat constructor.
  - destruct (lte x y) eqn:E.
    + constructor; [done | by constructor].
    + inversion Hl as [|? ? Hl' Hhd]; subst.
      constructor; [by apply IH |].
      destruct l as [|z l]; simpl.
      * constructor. by apply lte_total.
      * destruct (lte x z); constructor.
        -- by apply lte_total.
        -- by inversion Hhd.
Qed.

Lemma sort_sorted (l : list A) : Sorted (ordered lte) (sort lte l).
Proof.
  induction l as [|x l IH]; simpl; [constructor | by apply insert_sorted].
Qed.

(** A sorted array is left as it is. *)
Lemma sort_fixed (l : list A) : Sorted (ordered lte) l -> sort lte l = l.
Proof.
  induction l as [|x l IH]; simpl; intros Hl; [done |].
  inversion Hl as [|? ? Hl' Hhd]; subst.
  rewrite (IH Hl'). destruct Hhd as [|y l Hxy]; simpl; [done |].
  unfold ordered in Hxy. by rewrite Hxy.
Qed.

Lemma sort_idem (l : list A) : sort lte (sort lte l) = sort lte l.
Proof. apply sort_fixed, sort_sorted. Qed.

Lemma sort_Forall (P : A -> Prop) (l : list A) : Forall P l -> Forall P (sort lte l).
Proof.
  intros H. apply List.Forall_forall. intros x Hx.
  rewrite List.Forall_forall in H. apply H.
  eapply Permutation_in; [apply sort_perm | exact Hx].
Qed.
End SortFacts.

Lemma Sorted_weaken {A} (R R' : A -> A -> Prop) (l : list A) :
  (forall a b, R a b -> R' a b) -> Sorted R l -> Sorted R' l.
Proof.
  intros HR. induction 1 as [|x l Hl IH Hhd]; constructor; [done |].
  destruct Hhd; constructor. by apply HR.
Qed.

Lemma filter_all {A} (f : A -> bool) (l : list A) :
  Forall (fun x => f x = true) l -> List.filter f l = l.
Proof.
  induction 1 as [|x l Hx _ IH]; simpl; [done | by rewrite Hx, IH].
Qed.

Lemma filter_Forall {A} (f : A -> bool) (l : list A) :
  Forall (fun x => f x = true) (List.filter f l).
Proof.
  apply List.Forall_forall. intros x Hx. by apply List.filter_In in Hx as [_ Hx].
Qed.

Lemma filter_keeps {A} (f : A -> bool) (P : A -> Prop) (l : list A) :
  Forall P l -> Forall P (List.filter f l).
Proof.
  intros H. apply List.Forall_forall. intros x Hx.
  apply List.filter_In in Hx as [Hx _]. rewrite List.Forall_forall in H. by apply H.
Qed.

Lemma priceAsc_total (x y : Product.t) :
  (priceAsc x y <=? 0) = false -> (priceAsc y x <=? 0) = true.
Proof. unfold priceAsc. rewrite Z.leb_gt, Z.leb_le. lia. Qed.

Lemma priceDesc_total (x y : Product.t) :
  (priceDesc x y <=? 0) = false -> (priceDesc y x <=? 0) = true.
Proof. unfold priceDesc. rewrite Z.leb_gt, Z.leb_le. lia. Qed.

Lemma Qle_bool_diff (a b : Q) : Qle_bool (b - a) 0 = true <-> (b <= a)%Q.
Proof.
  rewrite Qle_bool_iff. split; intros H; lra.
Qed.

Lemma ratingDesc_total (x y : Product.t) :
  Qle_bool (ratingDesc x y) 0 = false -> Qle_bool (ratingDesc y x) 0 = true.
Proof.
  unfold ratingDesc. intros H. apply Qle_bool_diff.
  destruct (Qlt_le_dec (Product.rating x) (Product.rating y)) as [Hlt | Hle].
  - by apply Qlt_le_weak.
  - apply Qle_bool_diff in Hle. congruence.
Qed.

(** ** Strings *)

Lemma startsWith_prefix (s t : jsstring) :
  startsWith s t = true <-> exists b, s = t ++ b.
Proof.
  revert s. induction t as [|c t IH]; intros s; simpl.
  - split; [intros _; by exists s | done].
  - destruct s as [|d s].
    + split; [done | intros [b Hb]; discriminate Hb].
    + rewrite andb_true_iff, N.eqb_eq, IH. split.
      * intros [-> [b ->]]. by exists b.
      * intros [b [= -> ->]]. split; [done | by exists b].
Qed.

(** [includes] is the occurrence of [t] somewhere in [s]. *)
Lemma includes_substring (s t : jsstring) :
  includes s t = true <-> exists a b, s = a ++ t ++ b.
Proof.
  induction s as [|d s IH]; simpl.
  - rewrite orb_false_r, startsWith_prefix. split.
    + intros [b Hb]. by exists [], b.
    + intros (a & b & H). symmetry in H.
      apply app_eq_nil in H as [-> H]. exists b. by rewrite H.
  - rewrite orb_true_iff, startsWith_prefix, IH. split.
    + intros [[b Hb] | (a & b & ->)].
      * by exists [], b.
      * by exists (d :: a), b.
    + intros (a & b & H). destruct a as [|a0 a]; simpl in H.
      * left. by exists b.
      * right. injection H as -> ->. by exists a, b.
Qed.

Lemma trimStart_nil (s : jsstring) : trimStart s = [] <-> blank s.
Proof.
  unfold blank. induction s as [|c s IH]; simpl.
  - split; [constructor | done].
  - destruct (isWhiteSpace c) eqn:E.
    + rewrite IH. split; [by constructor | by inversion 1].
    + split; [done | inversion 1; congruence].
Qed.

Lemma trimStart_blank (s : jsstring) : blank (trimStart s) <-> blank s.
Proof.
  unfold blank. induction s as [|c s IH]; simpl; [done |].
  destruct (isWhiteSpace c) eqn:E; [| done].
  rewrite IH. split; [by constructor | by inversion 1].
Qed.

Lemma blank_rev (s : jsstring) : blank (rev s) <-> blank s.
Proof.
  unfold blank. rewrite !List.Forall_forall.
  split; intros H c Hc; apply H; [by apply in_rev in Hc | by apply in_rev].
Qed.

(** [q.trim()] is empty, hence false in a condition, exactly when [q]
    consists of white space only (or is empty). *)
Lemma trim_truthy (q : jsstring) : truthy (trim q) = false <-> blank q.
Proof.
  assert (H : trim q = [] <-> blank q).
  { unfold trim, trimEnd. rewrite <- trimStart_blank, <- blank_rev, <- trimStart_nil.
    split; intros E.
    - apply (f_equal (@rev N)) in E. by rewrite rev_involutive in E.
    - by rewrite E. }
  rewrite <- H. destruct (trim q); simpl; split; congruence.
Qed.

Lemma trim_truthy_not_blank (q : jsstring) : truthy (trim q) = true <-> ~ blank q.
Proof.
  rewrite <- trim_truthy. destruct (truthy (trim q)); split; congruence.
Qed.

(** ** The heap during [filtered] *)

Lemma spread_extends (h : heap) (l : loc) (ps : list Product.t) :
  h !! l = Some ps ->
  extends h (fst (spread l h)) ps (snd (spread l h)).
Proof.
  intros Hl. unfold spread, bind, read, alloc. rewrite Hl. simpl.
  repeat split; [by exists [ps] | | done].
  by apply list_lookup_middle.
Qed.

Lemma array_filter_extends (h hc : heap) (arr : loc) (c : list Product.t)
    (f : Product.t -> bool) :
  extends h arr c hc ->
  extends h (fst (array_filter f arr hc)) (List.filter f c) (snd (array_filter f arr hc)).
Proof.
  intros ([ext ->] & Hc & Hge). unfold array_filter, bind, read, alloc.
  rewrite Hc. simpl. repeat split.
  - exists (ext ++ [List.filter f c]). by rewrite app_assoc.
  - by apply list_lookup_middle.
  - rewrite length_app. lia.
Qed.

Lemma write_extends (h hc : heap) (arr : loc) (c v : list Product.t) :
  extends h arr c hc -> extends h arr v (<[arr := v]> hc).
Proof.
  intros ([ext ->] & Hc & Hge). repeat split; [| | done].
  - exists (<[(arr - length h)%nat := v]> ext). by apply insert_app_r_alt.
  - apply list_lookup_insert_eq. by eapply lookup_lt_Some.
Qed.

Lemma array_sortZ_extends (h hc : heap) (arr : loc) (c : list Product.t)
    (cmp : Product.t -> Product.t -> Z) :
  extends h arr c hc ->
  extends h arr (sortZ cmp c) (snd (array_sortZ cmp arr hc)).
Proof.
  intros H. unfold array_sortZ, bind, read, write.
  destruct H as (Hext & Hc & Hge). rewrite Hc. simpl.
  by apply (write_extends h hc arr c).
Qed.

Lemma array_sortQ_extends (h hc : heap) (arr : loc) (c : list Product.t)
    (cmp : Product.t -> Product.t -> Q) :
  extends h arr c hc ->
  extends h arr (sortQ cmp c) (snd (array_sortQ cmp arr hc)).
Proof.
  intros H. unfold array_sortQ, bind, read, write.
  destruct H as (Hext & Hc & Hge). rewrite Hc. simpl.
  by apply (write_extends h hc arr c).
Qed.

Lemma bind_run {A B} (m : M A) (k : A -> M B) (h : heap) :
  bind m k h = k (fst (m h)) (snd (m h)).
Proof. unfold bind. by destruct (m h). Qed.

(** [filtered] leaves the arrays of the heap it is run in as they are and
    returns a new array that holds the listing. *)
Lemma filtered_run (lower : jsstring -> jsstring) (h : heap) (products : loc)
    (ps : list Product.t) (q category sort : jsstring) :
  h !! products = Some ps ->
  extends h (fst (filtered lower products q category sort h))
    (deriveListing lower ps q category sort)
    (snd (filtered lower products q category sort h)).
Proof.
  intros Hps.
  pose proof (spread_extends h products ps Hps) as H0.
  unfold filtered, deriveListing, byName, byCategory, bySort.
  destruct (truthy (trim q)); destruct (negb (str_eq category (js "All")));
    destruct (str_eq sort (js "priceAsc"));
    try destruct (str_eq sort (js "priceDesc"));
    try destruct (str_eq sort (js "ratingDesc"));
    repeat (rewrite bind_run; cbv beta zeta); unfold ret; cbn [fst snd];
    repeat first [ exact H0
                 | apply array_sortZ_extends
                 | apply array_sortQ_extends
                 | apply array_filter_extends ].
Qed.

(** ** The listing *)

Section ListingFacts.
Variable lower : jsstring -> jsstring.

Lemma filter_filter {A} (f g : A -> bool) (l : list A) :
  List.filter g (List.filter f l) = List.filter (fun x => f x && g x) l.
Proof.
  induction l as [|x l IH]; simpl; [done |].
  destruct (f x); simpl; [| done]. destruct (g x); by rewrite IH.
Qed.

Lemma filters_keeps (q category : jsstring) (ps : list Product.t) :
  byCategory category (byName lower q ps) = List.filter (keeps lower q category) ps.
Proof.
  unfold byCategory, byName, keeps, nameMatches, categoryMatches.
  destruct (truthy (trim q)); destruct (str_eq category (js "All")); simpl.
  - rewrite <- (filter_all (fun _ => true) (List.filter _ ps)) at 1
      by (apply List.Forall_forall; done).
    rewrite filter_filter. done.
  - apply filter_filter.
  - symmetry. apply filter_all, List.Forall_forall. done.
  - done.
Qed.

Lemma keeps_spec (q category : jsstring) (p : Product.t) :
  keeps lower q category p = true
  <-> (blank q \/ exists a b, lower (Product.name p) = a ++ lower q ++ b)
      /\ (category = js "All" \/ Product.category p = category).
Proof.
  unfold keeps.
  rewrite andb_true_iff, !orb_true_iff, negb_true_iff, trim_truthy,
    includes_substring, !str_eq_true.
  done.
Qed.

Lemma bySort_Forall (P : Product.t -> Prop) (sort : jsstring) (l : list Product.t) :
  Forall P l -> Forall P (bySort sort l).
Proof.
  intros H. unfold bySort, sortZ, sortQ.
  destruct (str_eq sort (js "priceAsc")); [by apply sort_Forall |].
  destruct (str_eq sort (js "priceDesc")); [by apply sort_Forall |].
  destruct (str_eq sort (js "ratingDesc")); [by apply sort_Forall | done].
Qed.

Lemma bySort_perm (sort : jsstring) (l : list Product.t) : Permutation (bySort sort l) l.
Proof.
  unfold bySort, sortZ, sortQ.
  destruct (str_eq sort (js "priceAsc")); [by apply sort_perm |].
  destruct (str_eq sort (js "priceDesc")); [by apply sort_perm |].
  destruct (str_eq sort (js "ratingDesc")); [by apply sort_perm | done].
Qed.

Lemma bySort_idem (sort : jsstring) (l : list Product.t) :
  bySort sort (bySort sort l) = bySort sort l.
Proof.
  unfold bySort, sortZ, sortQ.
  destruct (str_eq sort (js "priceAsc")); [apply sort_idem, priceAsc_total |].
  destruct (str_eq sort (js "priceDesc")); [apply sort_idem, priceDesc_total |].
  destruct (str_eq sort (js "ratingDesc")); [apply sort_idem, ratingDesc_total | done].
Qed.

Lemma deriveListing_keeps (ps : list Product.t) (q category sort : jsstring) :
  deriveListing lower ps q category sort = bySort sort (List.filter (keeps lower q category) ps).
Proof. unfold deriveListing. by rewrite filters_keeps. Qed.

(** Listing the listing again changes nothing. *)
Lemma deriveListing_idem (ps : list Product.t) (q category sort : jsstring) :
  deriveListing lower (deriveListing lower ps q category sort) q category sort
  = deriveListing lower ps q category sort.
Proof.
  rewrite !deriveListing_keeps.
  rewrite (filter_all (keeps lower q category)).
  - apply bySort_idem.
  - apply bySort_Forall, filter_Forall.
Qed.

(** The array [filtered] returns holds the listing. *)
Lemma filtered_result (h : heap) (products : loc) (ps : list Product.t)
    (q category sort : jsstring) :
  h !! products = Some ps ->
  snd (filtered lower products q category sort h)
    !! fst (filtered lower products q category sort h)
  = Some (deriveListing lower ps q category sort).
Proof. intros H. by destruct (filtered_run lower h products ps q category sort H) as (_ & ? & _). Qed.

(** Every array of the heap [filtered] is run in is as it was. *)
Lemma filtered_preserves (h : heap) (products : loc) (ps : list Product.t)
    (q category sort : jsstring) (l : loc) (v : list Product.t) :
  h !! products = Some ps ->
  h !! l = Some v ->
  snd (filtered lower products q category sort h) !! l = Some v.
Proof.
  intros H Hl.
  destruct (filtered_run lower h products ps q category sort H) as ([ext ->] & _).
  by apply lookup_app_l_Some.
Qed.
End ListingFacts.

Lemma price_le_trans : Transitive (fun a b => Product.priceINR a <= Product.priceINR b).
Proof. intros a b c. lia. Qed.

Lemma price_ge_trans : Transitive (fun a b => Product.priceINR b <= Product.priceINR a).
Proof. intros a b c. lia. Qed.

Lemma rating_ge_trans : Transitive (fun a b => (Product.rating b <= Product.rating a)%Q).
Proof. intros a b c H1 H2. by apply (Qle_trans _ (Product.rating b)). Qed.

Lemma sortZ_priceAsc_sorted (l : list Product.t) :
  StronglySorted (fun a b => Product.priceINR a <= Product.priceINR b) (sortZ priceAsc l).
Proof.
  apply (Sorted_StronglySorted price_le_trans).
  eapply Sorted_weaken; [| apply sort_sorted, priceAsc_total].
  intros a b. unfold ordered, priceAsc. rewrite Z.leb_le. lia.
Qed.

Lemma sortZ_priceDesc_sorted (l : list Product.t) :
  StronglySorted (fun a b => Product.priceINR b <= Product.priceINR a) (sortZ priceDesc l).
Proof.
  apply (Sorted_StronglySorted price_ge_trans).
  eapply Sorted_weaken; [| apply sort_sorted, priceDesc_total].
  intros a b. unfold ordered, priceDesc. rewrite Z.leb_le. lia.
Qed.

Lemma sortQ_ratingDesc_sorted (l : list Product.t) :
  StronglySorted (fun a b => (Product.rating b <= Product.rating a)%Q) (sortQ ratingDesc l).
Proof.
  apply (Sorted_StronglySorted rating_ge_trans).
  eapply Sorted_weaken; [| apply sort_sorted, ratingDesc_total].
  intros a b. unfold ordered, ratingDesc. by rewrite Qle_bool_diff.
Qed.

(** C6, as the code has it. Run in a heap that holds the product array,
    [filtered] changes no array of that heap and returns a new array
    [out]. A product is in [out] as often as it passes [keeps] in the
    input: its lower-cased name contains the lower-cased query, or the
    query is empty or all white space; and the category is "All" or is
    the product's. [out] ascends in price for "priceAsc", descends in
    price for "priceDesc", descends in rating for "ratingDesc" (equal keys
    in input order), and is the kept products in input order for any other
    key. *)
Theorem filtered_listing (lower : jsstring -> jsstring) (h : heap) (products : loc)
    (ps : list Product.t) (q category sort : jsstring) :
  h !! products = Some ps ->
  let (r, h') := filtered lower products q category sort h in
  let kept := List.filter (keeps lower q category) ps in
  (forall l v, h !! l = Some v -> h' !! l = Some v)
  /\ h' !! products = Some ps
  /\ (forall p, keeps lower q category p = true
                <-> (blank q \/ exists a b, lower (Product.name p) = a ++ lower q ++ b)
                    /\ (category = js "All" \/ Product.category p = category))
  /\ exists out,
       h' !! r = Some out
       /\ Permutation out kept
       /\ (sort = js "priceAsc" ->
           out = sortZ priceAsc kept
           /\ StronglySorted (fun a b => Product.priceINR a <= Product.priceINR b) out)
       /\ (sort = js "priceDesc" ->
           out = sortZ priceDesc kept
           /\ StronglySorted (fun a b => Product.priceINR b <= Product.priceINR a) out)
       /\ (sort = js "ratingDesc" ->
           out = sortQ ratingDesc kept
           /\ StronglySorted (fun a b => (Product.rating b <= Product.rating a)%Q) out)
       /\ (sort <> js "priceAsc" -> sort <> js "priceDesc" -> sort <> js "ratingDesc" ->
           out = kept).
Proof.
  intros Hps.
  pose proof (filtered_result lower h products ps q category sort Hps) as Hr.
  pose proof (fun l v => filtered_preserves lower h products ps q category sort l v Hps) as Hh.
  destruct (filtered lower products q category sort h) as [r h']. simpl in Hr, Hh.
  cbv zeta. split; [exact Hh |]. split; [by apply Hh |].
  split; [intros p; apply keeps_spec |].
  exists (deriveListing lower ps q category sort). split; [exact Hr |].
  rewrite deriveListing_keeps. split; [apply bySort_perm |].
  unfold bySort. repeat split.
  - by subst sort.
  - subst sort. apply sortZ_priceAsc_sorted.
  - by subst sort.
  - subst sort. apply sortZ_priceDesc_sorted.
  - by subst sort.
  - subst sort. apply sortQ_ratingDesc_sorted.
  - intros H1 H2 H3.
    by rewrite (proj2 (str_eq_false _ _) H1), (proj2 (str_eq_false _ _) H2),
      (proj2 (str_eq_false _ _) H3).
Qed.

Lemma filtered_listing_witness :
  [initialProducts] !! 0%nat = Some initialProducts
  /\ let (r, h') := filtered toLowerCaseASCII 0%nat (js "milk") (js "All") (js "relevance")
                      [initialProducts] in
     h' !! 0%nat = Some initialProducts /\ h' !! r = Some [milk].
Proof.
  split; [reflexivity |].
  pose proof (filtered_listing toLowerCaseASCII [initialProducts] 0%nat initialProducts
                (js "milk") (js "All") (js "relevance") eq_refl) as H.
  destruct (filtered toLowerCaseASCII 0%nat (js "milk") (js "All") (js "relevance")
              [initialProducts]) as [r h'].
  destruct H as (_ & Hp & _ & out & Hout & _ & _ & _ & _ & Hrel).
  split; [exact Hp |]. rewrite Hout. f_equal. by apply Hrel.
Defined.

(** C6 as stated fails on a query of white space. For the query of two
    spaces no name of the initial catalog contains the query, yet the
    listing holds all five products: the name filter is skipped, although
    the query is not empty. *)
Lemma filtered_blank_query_not_matched :
  List.filter (fun p => includes (toLowerCaseASCII (Product.name p)) (toLowerCaseASCII (js "  ")))
    initialProducts = []
  /\ let (r, h') := filtered toLowerCaseASCII 0%nat (js "  ") (js "All") (js "relevance")
                      [initialProducts] in
     h' !! r = Some initialProducts.
Proof. split; reflexivity. Qed.

(** C8. [filtered], run on the array it returned with the same query,
    category and sort key, returns an array with the same contents (and
    leaves the first result as it was). *)
Theorem filtered_idempotent (lower : jsstring -> jsstring) (h : heap) (products : loc)
    (ps : list Product.t) (q category sort : jsstring) :
  h !! products = Some ps ->
  let (r1, h1) := filtered lower products q category sort h in
  let (r2, h2) := filtered lower r1 q category sort h1 in
  exists out,
    h1 !! r1 = Some out /\ h2 !! r2 = Some out /\ h2 !! r1 = Some out
    /\ out = deriveListing lower ps q category sort
    /\ deriveListing lower out q category sort = out.
Proof.
  intros Hps.
  pose proof (filtered_result lower h products ps q category sort Hps) as H1.
  destruct (filtered lower products q category sort h) as [r1 h1]. simpl in H1.
  pose proof (filtered_result lower h1 r1 _ q category sort H1) as H2.
  pose proof (filtered_preserves lower h1 r1 _ q category sort r1 _ H1 H1) as H3.
  destruct (filtered lower r1 q category sort h1) as [r2 h2]. simpl in H2, H3.
  exists (deriveListing lower ps q category sort).
  rewrite deriveListing_idem in H2. repeat split; try done.
  apply deriveListing_idem.
Qed.

Lemma filtered_idempotent_witness :
  [initialProducts] !! 0%nat = Some initialProducts
  /\ let (r1, h1) := filtered toLowerCaseASCII 0%nat (js "o") (js "All") (js "priceDesc")
                       [initialProducts] in
     let (r2, h2) := filtered toLowerCaseASCII r1 (js "o") (js "All") (js "priceDesc") h1 in
     h2 !! r2 = h1 !! r1.
Proof.
  split; [reflexivity |].
  pose proof (filtered_idempotent toLowerCaseASCII [initialProducts] 0%nat initialProducts
                (js "o") (js "All") (js "priceDesc") eq_refl) as H.
  destruct (filtered toLowerCaseASCII 0%nat (js "o") (js "All") (js "priceDesc")
              [initialProducts]) as [r1 h1].
  destruct (filtered toLowerCaseASCII r1 (js "o") (js "All") (js "priceDesc") h1) as [r2 h2].
  destruct H as (out & H1 & H2 & _). by rewrite H1, H2.
Defined.

(** C10. A query of white space only is not matched against the names.
    Any other query is lower-cased as it is, white space at its ends
    included, and must occur in the lower-cased name. So the query
    " fresh" lists nothing from the initial catalog, while "fresh" lists
    the milk, whose name begins with that word. *)
Theorem query_matched_untrimmed :
  (forall lower h products ps q category sort,
      h !! products = Some ps ->
      let (r, h') := filtered lower products q category sort h in
      (blank q -> h' !! r = Some (bySort sort (byCategory category ps)))
      /\ (~ blank q ->
          h' !! r = Some (bySort sort (byCategory category
                            (List.filter
                               (fun p => includes (lower (Product.name p)) (lower q)) ps))))
      /\ (forall p, includes (lower (Product.name p)) (lower q) = true
                    <-> exists a b, lower (Product.name p) = a ++ lower q ++ b))
  /\ startsWith (toLowerCaseASCII (Product.name milk)) (js "fresh") = true
  /\ (let (r, h') := filtered toLowerCaseASCII 0%nat (js " fresh") (js "All") (js "relevance")
                       [initialProducts] in h' !! r = Some [])
  /\ (let (r, h') := filtered toLowerCaseASCII 0%nat (js "fresh") (js "All") (js "relevance")
                       [initialProducts] in h' !! r = Some [milk]).
Proof.
  split; [| by repeat split].
  intros lower h products ps q category sort Hps.
  pose proof (filtered_result lower h products ps q category sort Hps) as Hr.
  destruct (filtered lower products q category sort h) as [r h']. simpl in Hr.
  unfold deriveListing, byName in Hr. repeat split.
  - intros Hb. apply trim_truthy in Hb. by rewrite Hb in Hr.
  - intros Hb. apply trim_truthy_not_blank in Hb. by rewrite Hb in Hr.
  - by apply includes_substring.
  - by apply includes_substring.
Qed.

(** * Further properties of the handlers *)

(** ** The cart holds one line for an identifier *)

Lemma sameId_absent (id0 : jsstring) (c : list CartLine.t) :
  ~ In id0 (ids c) -> Forall (fun y => sameId id0 y = false) c.
Proof.
  intros H. apply List.Forall_forall. intros y Hy. apply str_eq_false.
  intros E. apply H. unfold ids. rewrite <- E. by apply in_map.
Qed.

Lemma absent_sameId (id0 : jsstring) (c : list CartLine.t) :
  Forall (fun y => sameId id0 y = false) c -> ~ In id0 (ids c).
Proof.
  intros H Hin. unfold ids in Hin. apply in_map_iff in Hin as (y & Hy & Hin).
  rewrite List.Forall_forall in H. specialize (H y Hin).
  apply str_eq_false in H. by apply H.
Qed.

(** With one line for [id0], at [i], a map over the lines of [id0]
    changes that position only. *)
Lemma map_at_unique (id0 : jsstring) (g : CartLine.t -> CartLine.t)
    (c : list CartLine.t) (i : nat) (x : CartLine.t) :
  List.NoDup (ids c) -> c !! i = Some x -> CartLine.id x = id0 ->
  map (fun y => if sameId id0 y then g y else y) c = <[i := g x]> c.
Proof.
  revert i. induction c as [|y c IH]; intros i Hnd Hi Hx; [done |].
  simpl in Hnd. apply List.NoDup_cons_iff in Hnd as [Hy Hnd].
  destruct i as [|i]; simpl in Hi |- *.
  - injection Hi as ->. unfold sameId at 1. rewrite Hx, str_eq_refl. f_equal.
    apply (map_absent (sameId id0) g). apply sameId_absent. by rewrite <- Hx.
  - assert (Hne : sameId id0 y = false).
    { apply str_eq_false. intros E. apply Hy. rewrite E, <- Hx.
      apply in_map. apply list_elem_of_In. by eapply list_elem_of_lookup_2. }
    rewrite Hne. f_equal. by apply IH.
Qed.

Lemma filter_at_unique (id0 : jsstring) (c : list CartLine.t) (i : nat) (x : CartLine.t) :
  List.NoDup (ids c) -> c !! i = Some x -> CartLine.id x = id0 ->
  List.filter (fun y => negb (sameId id0 y)) c = delete i c.
Proof.
  revert i. induction c as [|y c IH]; intros i Hnd Hi Hx; [done |].
  simpl in Hnd. apply List.NoDup_cons_iff in Hnd as [Hy Hnd].
  destruct i as [|i]; simpl in Hi |- *.
  - injection Hi as ->. unfold sameId at 1. rewrite Hx, str_eq_refl. simpl.
    apply filter_all. eapply List.Forall_impl; [| apply (sameId_absent id0 c)].
    + intros a Ha. by rewrite Ha.
    + by rewrite <- Hx.
  - assert (Hne : sameId id0 y = false).
    { apply str_eq_false. intros E. apply Hy. rewrite E, <- Hx.
      apply in_map. apply list_elem_of_In. by eapply list_elem_of_lookup_2. }
    rewrite Hne. simpl. f_equal. by apply IH.
Qed.

Lemma ids_map (f : CartLine.t -> CartLine.t) (c : list CartLine.t) :
  (forall y, CartLine.id (f y) = CartLine.id y) -> ids (map f c) = ids c.
Proof.
  intros Hf. unfold ids. rewrite map_map. apply map_ext. exact Hf.
Qed.

Lemma ids_setQty_next (id0 : jsstring) (qty : Z) (c : list CartLine.t) :
  ids (setQty_next id0 qty c) = ids c.
Proof. apply ids_map. intros y. cbv beta. by destruct (sameId id0 y). Qed.

Lemma ids_addToCart_next (p : Product.t) (c : list CartLine.t) :
  ids (addToCart_next p c)
  = match List.find (sameId (Product.id p)) c with
    | Some _ => ids c
    | None => ids c ++ [Product.id p]
    end.
Proof.
  unfold addToCart_next. destruct (List.find _ c).
  - apply ids_map. intros y. cbv beta. by destruct (sameId (Product.id p) y).
  - unfold ids. by rewrite map_app.
Qed.

Lemma ids_filter (f : CartLine.t -> bool) (c : list CartLine.t) :
  List.NoDup (ids c) -> List.NoDup (ids (List.filter f c)).
Proof.
  induction c as [|y c IH]; simpl; intros Hnd; [done |].
  apply List.NoDup_cons_iff in Hnd as [Hy Hnd].
  destruct (f y); simpl; [| by apply IH].
  apply List.NoDup_cons_iff. split; [| by apply IH].
  intros Hin. apply Hy. unfold ids in *.
  apply in_map_iff in Hin as (z & Hz & Hin). apply List.filter_In in Hin as [Hin _].
  rewrite <- Hz. by apply in_map.
Qed.

Lemma NoDup_snoc {A} (l : list A) (x : A) :
  List.NoDup l -> ~ In x l -> List.NoDup (l ++ [x]).
Proof.
  intros Hl Hx. apply NoDup_rev_iff. rewrite rev_app_distr. simpl.
  apply List.NoDup_cons_iff. split.
  - intros Hin. apply Hx. by apply in_rev.
  - by apply NoDup_rev_iff.
Qed.

Lemma addToCart_next_unique (p : Product.t) (c : list CartLine.t) :
  List.NoDup (ids c) -> List.NoDup (ids (addToCart_next p c)).
Proof.
  intros Hnd. rewrite ids_addToCart_next.
  destruct (List.find _ c) eqn:E; [done |].
  apply NoDup_snoc; [done |]. apply absent_sameId. by apply find_absent.
Qed.

Lemma step_unique (st : state) (a : action) :
  List.NoDup (ids (cart st)) -> List.NoDup (ids (cart (step st a))).
Proof.
  intros H. destruct a; simpl; try done.
  - by apply addToCart_next_unique.
  - by rewrite ids_setQty_next.
  - by apply ids_filter.
  - constructor.
Qed.

Lemma click_step_unique (st : state) (c : click) :
  List.NoDup (ids (cart st)) -> List.NoDup (ids (cart (click_step st c))).
Proof.
  intros H. destruct c as [p | i | i | i |]; simpl; unfold on_line.
  - by apply addToCart_next_unique.
  - destruct (cart st !! i); [| done]. simpl. by rewrite ids_setQty_next.
  - destruct (cart st !! i); [| done]. simpl. by rewrite ids_setQty_next.
  - destruct (cart st !! i); [| done]. simpl. by apply ids_filter.
  - destruct (cart st) eqn:E; simpl; [rewrite E |]; constructor.
Qed.

(** X1. The identifiers of the cart lines stay pairwise distinct under
    every call of the handlers, with any arguments, and under every click
    of the buyer. *)
Theorem cart_ids_unique (st : state) :
  List.NoDup (map CartLine.id (cart st)) ->
  (forall acts, List.NoDup (map CartLine.id (cart (run acts st))))
  /\ (forall cs, List.NoDup (map CartLine.id (cart (clicks cs st)))).
Proof.
  intros H. split.
  - intros acts. revert st H. unfold run.
    induction acts as [|a acts IH]; intros st H; simpl; [done |].
    apply IH. by apply step_unique.
  - intros cs. revert st H. unfold clicks.
    induction cs as [|c cs IH]; intros st H; simpl; [done |].
    apply IH. by apply click_step_unique.
Qed.

Lemma cart_ids_unique_witness :
  List.NoDup (map CartLine.id (cart initialState))
  /\ List.NoDup (map CartLine.id
       (cart (run [AddToCart tomatoes; AddToCart milk; AddToCart tomatoes;
                   SetQty (js "p3") 0; RemoveItem (js "p9")] initialState))).
Proof.
  assert (H : List.NoDup (map CartLine.id (cart initialState))) by constructor.
  split; [exact H |].
  exact (proj1 (cart_ids_unique initialState H) _).
Defined.

(** Distinctness of given values, by computation. *)
Lemma NoDup_check {A} `{EqDecision A} (l : list A) :
  bool_decide (base.NoDup l) = true -> List.NoDup l.
Proof. intros H. apply NoDup_ListNoDup. by apply bool_decide_eq_true in H. Qed.

(** ** Quantities under the buttons of the drawer *)

Lemma addToCart_next_positive (p : Product.t) (c : list CartLine.t) :
  Forall (fun it => 1 <= CartLine.qty it) c ->
  Forall (fun it => 1 <= CartLine.qty it) (addToCart_next p c).
Proof.
  intros H. unfold addToCart_next. destruct (List.find _ c).
  - apply List.Forall_map. eapply List.Forall_impl; [| exact H].
    intros y Hy. cbv beta in *. destruct (sameId (Product.id p) y); simpl; lia.
  - apply List.Forall_app. split; [done |]. constructor; [simpl; lia | constructor].
Qed.

Lemma setQty_next_positive (id0 : jsstring) (qty : Z) (c : list CartLine.t) :
  1 <= qty ->
  Forall (fun it => 1 <= CartLine.qty it) c ->
  Forall (fun it => 1 <= CartLine.qty it) (setQty_next id0 qty c).
Proof.
  intros Hq H. unfold setQty_next. apply List.Forall_map.
  eapply List.Forall_impl; [| exact H].
  intros y Hy. cbv beta in *. by destruct (sameId id0 y).
Qed.

Lemma click_step_positive (st : state) (c : click) :
  Forall (fun it => 1 <= CartLine.qty it) (cart st) ->
  Forall (fun it => 1 <= CartLine.qty it) (cart (click_step st c)).
Proof.
  intros H. destruct c as [p | i | i | i |]; simpl; unfold on_line.
  - by apply addToCart_next_positive.
  - destruct (cart st !! i); [| done]. simpl. apply setQty_next_positive; [lia | done].
  - destruct (cart st !! i) as [it|] eqn:E; [| done]. simpl.
    apply setQty_next_positive; [| done].
    rewrite List.Forall_forall in H.
    assert (1 <= CartLine.qty it); [| lia].
    apply H, list_elem_of_In. by eapply list_elem_of_lookup_2.
  - destruct (cart st !! i); [| done]. simpl.
    apply List.Forall_forall. intros y Hy. apply List.filter_In in Hy as [Hy _].
    rewrite List.Forall_forall in H. by apply H.
  - destruct (cart st) eqn:E; simpl; [by rewrite E | constructor].
Qed.

(** X2. Through the buttons of the shop and of the cart drawer no
    quantity falls below 1: "Add" starts a line at [max(1, moq)] or adds
    one, "-" stops at 1, "+" adds one, and the other buttons only remove
    lines. *)
Theorem clicks_keep_quantities_positive (cs : list click) (st : state) :
  Forall (fun it => 1 <= CartLine.qty it) (cart st) ->
  Forall (fun it => 1 <= CartLine.qty it) (cart (clicks cs st)).
Proof.
  revert st. unfold clicks. induction cs as [|c cs IH]; intros st H; simpl; [done |].
  apply IH. by apply click_step_positive.
Qed.

Lemma clicks_keep_quantities_positive_witness :
  Forall (fun it => 1 <= CartLine.qty it) (cart initialState)
  /\ Forall (fun it => 1 <= CartLine.qty it)
       (cart (clicks [ClickAdd rice; ClickMinus 0; ClickMinus 0; ClickPlus 0] initialState)).
Proof.
  assert (H : Forall (fun it => 1 <= CartLine.qty it) (cart initialState)) by constructor.
  split; [exact H |].
  exact (clicks_keep_quantities_positive _ initialState H).
Defined.

(** ** Totals *)

Lemma totalINR_insert (c : list CartLine.t) (i : nat) (x y : CartLine.t) :
  c !! i = Some x ->
  totalINR (<[i := y]> c) = totalINR c - lineAmount x + lineAmount y.
Proof.
  rewrite !totalINR_sum. revert i. induction c as [|z c IH]; intros i Hi; [done |].
  destruct i as [|i]; simpl in Hi |- *.
  - injection Hi as ->. lia.
  - rewrite (IH i Hi). lia.
Qed.

Lemma totalINR_delete (c : list CartLine.t) (i : nat) (x : CartLine.t) :
  c !! i = Some x ->
  totalINR (delete i c) = totalINR c - lineAmount x.
Proof.
  rewrite !totalINR_sum. revert i. induction c as [|z c IH]; intros i Hi; [done |].
  destruct i as [|i]; simpl in Hi |- *.
  - injection Hi as ->. lia.
  - rewrite (IH i Hi). lia.
Qed.

Lemma totalINR_app (a b : list CartLine.t) :
  totalINR (a ++ b) = totalINR a + totalINR b.
Proof.
  rewrite !totalINR_sum, map_app. induction a as [|x a IH]; simpl; lia.
Qed.

Lemma find_present (c : list CartLine.t) (i : nat) (x : CartLine.t) (id0 : jsstring) :
  c !! i = Some x -> CartLine.id x = id0 ->
  exists y, List.find (sameId id0) c = Some y.
Proof.
  intros Hi Hx. destruct (List.find (sameId id0) c) as [y|] eqn:E; [by exists y |].
  apply find_absent in E. rewrite List.Forall_forall in E.
  assert (Hin : In x c) by (apply list_elem_of_In; by eapply list_elem_of_lookup_2).
  specialize (E x Hin). apply str_eq_false in E. done.
Qed.

(** X3. "Add" on a product whose identifier is in the cart, at [i],
    changes that line only: its quantity grows by one. The number of
    lines stays, and the total grows by the price the line holds,
    whatever price the product passed to the handler carries. *)
Theorem addToCart_present_increments (p : Product.t) (st : state) (i : nat) (x : CartLine.t) :
  List.NoDup (map CartLine.id (cart st)) ->
  cart st !! i = Some x ->
  CartLine.id x = Product.id p ->
  let st' := addToCart p st in
  cart st' = <[i := CartLine.mk (CartLine.product x) (CartLine.qty x + 1)]> (cart st)
  /\ cartCount st' = cartCount st
  /\ totalINR (cart st') = totalINR (cart st) + CartLine.priceINR x
  /\ cartOpen st' = true.
Proof.
  intros Hnd Hi Hx st'.
  assert (E : cart st' = <[i := CartLine.mk (CartLine.product x) (CartLine.qty x + 1)]> (cart st)).
  { subst st'. simpl. unfold addToCart_next.
    destruct (find_present _ _ _ _ Hi Hx) as [y ->].
    by apply (map_at_unique (Product.id p)
                (fun x => CartLine.mk (CartLine.product x) (CartLine.qty x + 1))). }
  split; [exact E |]. split; [| split; [| done]].
  - unfold cartCount. by rewrite E, length_insert.
  - rewrite E, (totalINR_insert _ _ _ _ Hi). unfold lineAmount, CartLine.priceINR. simpl. lia.
Qed.

(** A copy of the tomatoes at another price, as the handler could be
    passed after a change of the catalog. *)
Lemma addToCart_present_increments_witness :
  totalINR (cart (addToCart
                    (Product.mk (js "p2") (js "Organic Tomatoes (1kg)") 120 9000 100
                       (js "Vegetables") [] (js "f3") 4.6 [])
                    (addToCart tomatoes initialState)))
  = 8900 + 89.
Proof.
  exact (proj1 (proj2 (proj2
    (addToCart_present_increments
       (Product.mk (js "p2") (js "Organic Tomatoes (1kg)") 120 9000 100
          (js "Vegetables") [] (js "f3") 4.6 [])
       (addToCart tomatoes initialState) 0 (CartLine.mk tomatoes 100)
       ltac:(apply NoDup_check; reflexivity) eq_refl eq_refl)))).
Defined.

(** X4. "Add" on a product whose identifier is not in the cart puts one
    line at the end, of quantity [max(1, moq)]: one more line, and a total
    grown by the price times that quantity. *)
Theorem addToCart_absent_appends (p : Product.t) (st : state) :
  ~ In (Product.id p) (map CartLine.id (cart st)) ->
  let st' := addToCart p st in
  cart st' = cart st ++ [CartLine.mk p (Z.max 1 (Product.moq p))]
  /\ cartCount st' = S (cartCount st)
  /\ totalINR (cart st') = totalINR (cart st) + Product.priceINR p * Z.max 1 (Product.moq p).
Proof.
  intros Hnot st'.
  assert (E : cart st' = cart st ++ [CartLine.mk p (Z.max 1 (Product.moq p))]).
  { subst st'. simpl. apply addToCart_next_absent, find_absent. by apply sameId_absent. }
  split; [exact E |]. split.
  - unfold cartCount. rewrite E, length_app. simpl. lia.
  - rewrite E, totalINR_app. unfold totalINR at 2. unfold CartLine.priceINR. simpl. lia.
Qed.

Lemma addToCart_absent_appends_witness :
  cartCount (addToCart milk (addToCart tomatoes initialState)) = 2%nat
  /\ totalINR (cart (addToCart milk (addToCart tomatoes initialState))) = 8900 + 75 * 200.
Proof.
  pose proof (addToCart_absent_appends milk (addToCart tomatoes initialState)
                ltac:(simpl; intros [H | []]; discriminate H)) as H.
  exact (conj (proj1 (proj2 H)) (proj2 (proj2 H))).
Defined.

(** X5. Removing the identifier of the line at [i] deletes that line and
    no other: the lines before and after keep their order, no line of
    that identifier is left, and the total falls by the amount of the
    line. *)
Theorem removeItem_deletes_line (st : state) (i : nat) (x : CartLine.t) :
  List.NoDup (map CartLine.id (cart st)) ->
  cart st !! i = Some x ->
  let st' := removeItem (CartLine.id x) st in
  cart st' = delete i (cart st)
  /\ ~ In (CartLine.id x) (map CartLine.id (cart st'))
  /\ totalINR (cart st') = totalINR (cart st) - CartLine.priceINR x * CartLine.qty x.
Proof.
  intros Hnd Hi st'.
  assert (E : cart st' = delete i (cart st)).
  { subst st'. simpl. by apply (filter_at_unique _ _ _ x). }
  split; [exact E |]. split.
  - subst st'. simpl. intros Hin. apply in_map_iff in Hin as (y & Hy & Hin).
    apply List.filter_In in Hin as [_ Hin]. apply negb_true_iff, str_eq_false in Hin. done.
  - rewrite E. by apply totalINR_delete.
Qed.

Lemma removeItem_deletes_line_witness :
  cart (removeItem (js "p2") (addToCart milk (addToCart tomatoes initialState)))
  = [CartLine.mk milk 200].
Proof.
  exact (proj1 (removeItem_deletes_line (addToCart milk (addToCart tomatoes initialState))
                  0 (CartLine.mk tomatoes 100)
                  ltac:(apply NoDup_check; reflexivity)
                  eq_refl)).
Defined.

Lemma setCart_same (f : list CartLine.t -> list CartLine.t) (st : state) :
  f (cart st) = cart st -> setCart f st = st.
Proof. intros H. destruct st. unfold setCart. simpl in *. by rewrite H. Qed.

(** X6. Removing an identifier that no line has changes nothing. *)
Theorem removeItem_absent_noop (st : state) (id0 : jsstring) :
  ~ In id0 (map CartLine.id (cart st)) -> removeItem id0 st = st.
Proof.
  intros H. unfold removeItem. apply setCart_same. apply filter_all.
  eapply List.Forall_impl; [| apply (sameId_absent id0 (cart st) H)].
  intros a Ha. by rewrite Ha.
Qed.

Lemma removeItem_absent_noop_witness :
  removeItem (js "p9") (addToCart tomatoes initialState) = addToCart tomatoes initialState.
Proof.
  exact (removeItem_absent_noop (addToCart tomatoes initialState) (js "p9")
           ltac:(simpl; intros [H | []]; discriminate H)).
Defined.

(** ** "+" and "-" *)

Lemma setQty_at (st : state) (i : nat) (x : CartLine.t) (qty : Z) :
  List.NoDup (ids (cart st)) ->
  cart st !! i = Some x ->
  cart (setQty (CartLine.id x) qty st) = <[i := CartLine.mk (CartLine.product x) qty]> (cart st).
Proof.
  intros Hnd Hi. simpl. unfold setQty_next.
  by apply (map_at_unique (CartLine.id x) (fun y => CartLine.mk (CartLine.product y) qty)).
Qed.

Lemma state_eq_cart (st st' : state) :
  cart st' = cart st ->
  (exists f, st' = setCart f st) ->
  st' = st.
Proof.
  intros E [f ->]. apply setCart_same. exact E.
Qed.

Lemma line_eta (x : CartLine.t) : CartLine.mk (CartLine.product x) (CartLine.qty x) = x.
Proof. by destruct x. Qed.

(** The quantity of the line at [i] after one click on its "-" or "+". *)
Lemma click_qty (st : state) (i : nat) (x : CartLine.t) (qty : Z) (c : click) :
  List.NoDup (ids (cart st)) ->
  cart st !! i = Some x ->
  (c = ClickMinus i /\ qty = Z.max 1 (CartLine.qty x - 1)
   \/ c = ClickPlus i /\ qty = CartLine.qty x + 1) ->
  click_step st c = setQty (CartLine.id x) qty st
  /\ cart (click_step st c) = <[i := CartLine.mk (CartLine.product x) qty]> (cart st).
Proof.
  intros Hnd Hi [[-> ->] | [-> ->]]; simpl; unfold on_line; rewrite Hi;
    (split; [done |]); by apply setQty_at.
Qed.

(** X7. On a cart line of quantity at least 1, "+" followed by "-" gives
    back the state before the two clicks; "-" on a line of quantity 1
    changes nothing; and on a line of quantity at least 2, "-" followed by
    "+" gives back the state as well. *)
Theorem plus_minus_round_trip (st : state) (i : nat) (x : CartLine.t) :
  List.NoDup (map CartLine.id (cart st)) ->
  cart st !! i = Some x ->
  (1 <= CartLine.qty x -> clicks [ClickPlus i; ClickMinus i] st = st)
  /\ (CartLine.qty x = 1 -> clicks [ClickMinus i] st = st)
  /\ (2 <= CartLine.qty x -> clicks [ClickMinus i; ClickPlus i] st = st).
Proof.
  intros Hnd Hi.
  assert (Hlt : (i < length (cart st))%nat) by (by eapply lookup_lt_Some).
  assert (two : forall c1 c2 q1,
             (c1 = ClickMinus i /\ q1 = Z.max 1 (CartLine.qty x - 1)
              \/ c1 = ClickPlus i /\ q1 = CartLine.qty x + 1) ->
             (c2 = ClickMinus i /\ CartLine.qty x = Z.max 1 (q1 - 1)
              \/ c2 = ClickPlus i /\ CartLine.qty x = q1 + 1) ->
             clicks [c1; c2] st = st).
  { intros c1 c2 q1 H1 H2. unfold clicks. simpl.
    destruct (click_qty st i x q1 c1 Hnd Hi H1) as [E1 C1].
    set (st1 := click_step st c1) in *.
    assert (Hnd1 : List.NoDup (ids (cart st1))).
    { rewrite E1. simpl. by rewrite ids_setQty_next. }
    assert (Hi1 : cart st1 !! i = Some (CartLine.mk (CartLine.product x) q1)).
    { rewrite C1. by apply list_lookup_insert_eq. }
    destruct (click_qty st1 i _ (CartLine.qty x) c2 Hnd1 Hi1) as [E2 C2].
    { simpl. destruct H2 as [[-> H2] | [-> H2]]; [left | right]; done. }
    apply state_eq_cart.
    - rewrite C2, C1. simpl. rewrite list_insert_insert_eq, line_eta.
      by apply list_insert_id.
    - rewrite E2, E1. unfold setQty. destruct st. unfold setCart. simpl.
      eexists (fun c => _). reflexivity. }
  split; [| split].
  - intros Hq. apply (two _ _ (CartLine.qty x + 1)); [by right | left; split; [done | lia]].
  - intros Hq. change (clicks [ClickMinus i] st) with (click_step st (ClickMinus i)).
    destruct (click_qty st i x 1 (ClickMinus i) Hnd Hi) as [E C]; [left; split; [done | lia] |].
    apply state_eq_cart.
    + rewrite C. rewrite <- Hq, line_eta. by apply list_insert_id.
    + rewrite E. by eexists.
  - intros Hq. apply (two _ _ (CartLine.qty x - 1)); [left; split; [done | lia] | right; split; [done | lia]].
Qed.

Lemma plus_minus_round_trip_witness :
  clicks [ClickPlus 0; ClickMinus 0] (addToCart tomatoes initialState)
  = addToCart tomatoes initialState.
Proof.
  exact (proj1 (plus_minus_round_trip (addToCart tomatoes initialState) 0
                  (CartLine.mk tomatoes 100)
                  ltac:(apply NoDup_check; reflexivity) eq_refl)
           ltac:(simpl; lia)).
Defined.

(** ** Order of the listing *)

Section Stable.
Context {A : Type} (lte : A -> A -> bool) (same : A -> bool).
(** Two elements picked by [same] compare as equal or in order. *)
Hypothesis same_lte : forall x y, same x = true -> same y = true -> lte x y = true.

Lemma insert_filter_same (x : A) (l : list A) :
  List.filter same (insert lte x l) = List.filter same (x :: l).
Proof.
  induction l as [|y l IH]; [done |].
  simpl insert. destruct (lte x y) eqn:E; [done |].
  simpl. simpl in IH. rewrite IH.
  destruct (same y) eqn:Ey; [| done].
  destruct (same x) eqn:Ex; [| done].
  rewrite (same_lte x y Ex Ey) in E. discriminate E.
Qed.

Lemma sort_filter_same (l : list A) :
  List.filter same (sort lte l) = List.filter same l.
Proof.
  induction l as [|x l IH]; [done |].
  simpl sort. rewrite insert_filter_same. simpl. by rewrite IH.
Qed.
End Stable.

(** X8. The sorts of the listing are stable: the listed products of one
    price, or of one rating, follow each other as they do in the catalog. *)
Theorem listing_sort_stable (lower : jsstring -> jsstring) (ps : list Product.t)
    (q category : jsstring) :
  let kept := List.filter (keeps lower q category) ps in
  (forall k, List.filter (fun p => Product.priceINR p =? k)
               (deriveListing lower ps q category (js "priceAsc"))
             = List.filter (fun p => Product.priceINR p =? k) kept)
  /\ (forall k, List.filter (fun p => Product.priceINR p =? k)
                  (deriveListing lower ps q category (js "priceDesc"))
                = List.filter (fun p => Product.priceINR p =? k) kept)
  /\ (forall k, List.filter (fun p => Qeq_bool (Product.rating p) k)
                  (deriveListing lower ps q category (js "ratingDesc"))
                = List.filter (fun p => Qeq_bool (Product.rating p) k) kept).
Proof.
  intros kept. rewrite !deriveListing_keeps. fold kept. repeat split; intros k.
  - apply sort_filter_same. intros x y Hx Hy.
    apply Z.eqb_eq in Hx, Hy. unfold priceAsc. apply Z.leb_le. lia.
  - apply sort_filter_same. intros x y Hx Hy.
    apply Z.eqb_eq in Hx, Hy. unfold priceDesc. apply Z.leb_le. lia.
  - apply sort_filter_same. intros x y Hx Hy.
    apply Qeq_bool_iff in Hx, Hy. unfold ratingDesc. apply Qle_bool_diff.
    rewrite Hx, Hy. apply Qle_refl.
Qed.

Lemma StronglySorted_snoc {A} (R : A -> A -> Prop) (l : list A) (x : A) :
  StronglySorted R l -> Forall (fun y => R y x) l -> StronglySorted R (l ++ [x]).
Proof.
  induction 1 as [|y l Hl IH Hy]; intros Hx; simpl.
  - repeat constructor.
  - inversion Hx; subst. constructor; [by apply IH |].
    apply List.Forall_app. split; [done | by constructor].
Qed.

Lemma StronglySorted_rev {A} (R : A -> A -> Prop) (l : list A) :
  StronglySorted R l -> StronglySorted (fun a b => R b a) (rev l).
Proof.
  induction 1 as [|y l Hl IH Hy]; simpl; [constructor |].
  apply StronglySorted_snoc; [done |].
  apply List.Forall_forall. intros z Hz. apply in_rev in Hz.
  rewrite List.Forall_forall in Hy. by apply Hy.
Qed.

(** Two lists in strict order of a key that hold the same elements are
    one list. *)
Lemma strict_sorted_unique {A} (R : A -> A -> Prop) (l1 l2 : list A) :
  (forall a b, R a b -> R b a -> False) ->
  StronglySorted R l1 -> StronglySorted R l2 -> Permutation l1 l2 -> l1 = l2.
Proof.
  intros Hasym H1. revert l2. induction H1 as [|x l1 Hl1 IH Hx]; intros l2 H2 Hp.
  - by apply Permutation_nil in Hp.
  - destruct H2 as [|y l2 Hl2 Hy].
    + symmetry in Hp. by apply Permutation_nil in Hp.
    + assert (x = y) as <-.
      { assert (Hxin : In x (y :: l2)) by (eapply Permutation_in; [exact Hp | by left]).
        assert (Hyin : In y (x :: l1))
          by (eapply Permutation_in; [symmetry; exact Hp | by left]).
        destruct Hxin as [Hxy | Hxin]; [done |].
        destruct Hyin as [Hyx | Hyin]; [done |].
        rewrite List.Forall_forall in Hx, Hy.
        destruct (Hasym x y); [by apply Hx | by apply Hy]. }
      f_equal. apply IH; [done |]. by apply Permutation_cons_inv in Hp.
Qed.

Lemma StronglySorted_weaken {A} (R R' : A -> A -> Prop) (l : list A) :
  (forall a b, R a b -> R' a b) -> StronglySorted R l -> StronglySorted R' l.
Proof.
  intros HR. induction 1 as [|x l Hl IH Hx]; constructor; [done |].
  eapply List.Forall_impl; [| exact Hx]. intros a. apply HR.
Qed.

Lemma sorted_distinct_strict (R : Product.t -> Product.t -> Prop) (l : list Product.t) :
  StronglySorted R l ->
  List.NoDup (map Product.priceINR l) ->
  StronglySorted (fun a b => R a b /\ Product.priceINR a <> Product.priceINR b) l.
Proof.
  induction 1 as [|x l Hl IH Hx]; simpl; intros Hnd; [constructor |].
  apply List.NoDup_cons_iff in Hnd as [Hnot Hnd].
  constructor; [by apply IH |].
  apply List.Forall_forall. intros y Hy. rewrite List.Forall_forall in Hx.
  split; [by apply Hx |]. intros E. apply Hnot. rewrite E. by apply in_map.
Qed.

Lemma NoDup_map_filter {A B} (f : A -> B) (g : A -> bool) (l : list A) :
  List.NoDup (map f l) -> List.NoDup (map f (List.filter g l)).
Proof.
  induction l as [|x l IH]; simpl; intros Hnd; [done |].
  apply List.NoDup_cons_iff in Hnd as [Hx Hnd].
  destruct (g x); simpl; [| by apply IH].
  apply List.NoDup_cons_iff. split; [| by apply IH].
  intros Hin. apply Hx. apply in_map_iff in Hin as (z & Hz & Hin).
  apply List.filter_In in Hin as [Hin _]. rewrite <- Hz. by apply in_map.
Qed.

Lemma NoDup_map_perm {A B} (f : A -> B) (l l' : list A) :
  Permutation l l' -> List.NoDup (map f l) -> List.NoDup (map f l').
Proof.
  intros Hp. apply Permutation_NoDup. by apply Permutation_map.
Qed.

(** X9. When the listed products have pairwise distinct prices, the
    listing for "priceDesc" is the listing for "priceAsc" read backwards. *)
Theorem priceDesc_reverses_priceAsc (lower : jsstring -> jsstring) (ps : list Product.t)
    (q category : jsstring) :
  List.NoDup (map Product.priceINR (List.filter (keeps lower q category) ps)) ->
  deriveListing lower ps q category (js "priceDesc")
  = rev (deriveListing lower ps q category (js "priceAsc")).
Proof.
  intros Hnd. rewrite !deriveListing_keeps.
  set (kept := List.filter (keeps lower q category) ps) in *.
  change (bySort (js "priceDesc") kept) with (sortZ priceDesc kept).
  change (bySort (js "priceAsc") kept) with (sortZ priceAsc kept).
  apply (strict_sorted_unique
           (fun a b => Product.priceINR b <= Product.priceINR a
                       /\ Product.priceINR a <> Product.priceINR b)).
  - intros a b [H1 H2] [H3 H4]. lia.
  - apply sorted_distinct_strict; [apply sortZ_priceDesc_sorted |].
    apply (NoDup_map_perm _ kept); [| done]. symmetry. apply sort_perm.
  - assert (Hasc : StronglySorted
                     (fun a b => Product.priceINR a <= Product.priceINR b
                                 /\ Product.priceINR a <> Product.priceINR b)
                     (sortZ priceAsc kept)).
    { apply sorted_distinct_strict; [apply sortZ_priceAsc_sorted |].
      apply (NoDup_map_perm _ kept); [| done]. symmetry. apply sort_perm. }
    apply StronglySorted_rev in Hasc.
    eapply StronglySorted_weaken; [| exact Hasc].
    intros a b [H1 H2]. split; [done | congruence].
  - rewrite <- Permutation_rev. unfold sortZ. by rewrite !sort_perm.
Qed.

Lemma priceDesc_reverses_priceAsc_witness :
  deriveListing toLowerCaseASCII initialProducts [] (js "All") (js "priceDesc")
  = rev (deriveListing toLowerCaseASCII initialProducts [] (js "All") (js "priceAsc")).
Proof.
  exact (priceDesc_reverses_priceAsc toLowerCaseASCII initialProducts [] (js "All")
           ltac:(apply NoDup_check; reflexivity)).
Defined.

(** X10. The listing shows products of the catalog only and is never
    longer than the catalog; when the identifiers of the catalog are
    pairwise distinct, so are those of the listing (they are the keys of
    the product cards). *)
Theorem listing_within_catalog (lower : jsstring -> jsstring) (ps : list Product.t)
    (q category sort : jsstring) :
  let out := deriveListing lower ps q category sort in
  (forall p, In p out -> In p ps /\ keeps lower q category p = true)
  /\ (length out <= length ps)%nat
  /\ (List.NoDup (map Product.id ps) -> List.NoDup (map Product.id out)).
Proof.
  intros out.
  assert (Hp : Permutation out (List.filter (keeps lower q category) ps)).
  { subst out. rewrite deriveListing_keeps. apply bySort_perm. }
  split; [| split].
  - intros p Hin. apply List.filter_In. eapply Permutation_in; [exact Hp | exact Hin].
  - rewrite (Permutation_length Hp). apply List.filter_length_le.
  - intros Hnd. eapply NoDup_map_perm; [symmetry; exact Hp |].
    by apply NoDup_map_filter.
Qed.

(** ** The catalog under the handlers *)

Lemma step_products (st : state) (a : action) :
  products (step st a) = saved [a] ++ products st /\ farmers (step st a) = farmers st.
Proof. by destruct a. Qed.

Lemma saved_app (a b : list action) : saved (a ++ b) = saved a ++ saved b.
Proof.
  induction a as [|x a IH]; [done |]. destruct x; simpl; by rewrite ?IH.
Qed.

Lemma run_products (acts : list action) (st : state) :
  products (run acts st) = rev (saved acts) ++ products st
  /\ farmers (run acts st) = farmers st.
Proof.
  unfold run. revert st. induction acts as [|a acts IH]; intros st; [done |].
  simpl fold_left. destruct (IH (step st a)) as [Hp Hf].
  destruct (step_products st a) as [Hp1 Hf1].
  rewrite Hp, Hf, Hp1, Hf1. split; [| done].
  change (a :: acts) with ([a] ++ acts). rewrite saved_app, rev_app_distr, <- !app_assoc.
  f_equal. destruct a; simpl; done.
Qed.

Lemma str_or_truthy (s d : jsstring) : d <> [] -> str_or s d <> [].
Proof. unfold str_or. destruct s; simpl; [done | discriminate]. Qed.

Lemma num_or_nonzero (v : number) (d : Z) : d <> 0 -> num_or v d <> 0.
Proof.
  intros Hd. destruct v as [|n]; simpl; [done |].
  unfold or_else. by destruct (Z.eqb_spec n 0).
Qed.

Lemma handleSubmit_listed_ok (random36 : jsstring) (form : Form.t) :
  listed_ok (handleSubmit random36 form).
Proof.
  unfold listed_ok, handleSubmit. simpl. repeat split.
  - by apply str_or_truthy.
  - by apply num_or_nonzero.
  - by eexists _, _.
  - lia.
  - repeat constructor.
  - repeat constructor.
Qed.

Lemma initialProducts_listed_ok : Forall listed_ok initialProducts.
Proof.
  unfold initialProducts.
  repeat (apply List.Forall_cons;
          [unfold listed_ok; simpl;
           repeat split; try discriminate; try lia;
           try (by eexists _, _); repeat constructor; simpl; lia |]).
  apply List.Forall_nil.
Qed.

Lemma saved_listed_ok (acts : list action) : Forall listed_ok (saved acts).
Proof.
  induction acts as [|a acts IH]; [constructor |].
  destruct a; simpl; try done. constructor; [apply handleSubmit_listed_ok | done].
Qed.

(** X11. Whatever handlers are called from the initial state, the catalog
    is the initial catalog with the products of the form before it, the
    latest first: nothing is removed or reordered. Every product in it has
    a name, a MOQ other than 0, and one to three tiers in ascending
    thresholds and descending prices of which the first starts at the MOQ;
    so its badges show all of its tiers. The list of farmers stays the
    initial one. *)
Theorem catalog_invariant (acts : list action) :
  let st := run acts initialState in
  products st = rev (saved acts) ++ initialProducts
  /\ Forall listed_ok (products st)
  /\ Forall (fun p => BulkBadges (Product.bulkTiers p) = Product.bulkTiers p) (products st)
  /\ farmers st = initialFarmers.
Proof.
  intros st. destruct (run_products acts initialState) as [Hp Hf].
  fold st in Hp, Hf. simpl in Hp, Hf.
  assert (Hok : Forall listed_ok (products st)).
  { rewrite Hp. apply List.Forall_app. split; [| apply initialProducts_listed_ok].
    apply List.Forall_rev, saved_listed_ok. }
  repeat split; try done.
  eapply List.Forall_impl; [| exact Hok].
  intros p (_ & _ & _ & Hlen & _). unfold BulkBadges. by apply take_ge.
Qed.

(** X12. For a price of at least 2 the form builds one tier, starting at
    the MOQ, at 95% of the price rounded down: at least 1 and below the
    price, so the product keeps the tier invariant of the data model. *)
Theorem handleSubmit_discount (random36 : jsstring) (form : Form.t) (n : Z) :
  Form.priceINR form = Num n ->
  2 <= n ->
  let p := handleSubmit random36 form in
  Product.priceINR p = n
  /\ Product.bulkTiers p = [Tier.mk (Product.moq p) (n * 95 / 100)]
  /\ 1 <= n * 95 / 100 < n
  /\ TierSchedule p.
Proof.
  intros Hp Hn p.
  assert (Hlo : 1 <= n * 95 / 100) by (apply Z.div_le_lower_bound; lia).
  assert (Hhi : n * 95 / 100 < n) by (apply Z.div_lt_upper_bound; lia).
  subst p. unfold handleSubmit. simpl. rewrite Hp. simpl.
  unfold or_else. destruct (Z.eqb_spec n 0); [lia |]. unfold floor_095.
  repeat split; try lia.
  - by rewrite Z.max_r.
  - repeat constructor.
  - repeat constructor. simpl. lia.
  - repeat constructor.
Qed.

Lemma handleSubmit_discount_witness :
  Product.bulkTiers
    (handleSubmit (js "0.k3j9x2")
       (Form.mk (js "Spinach") (Num 40) (Num 50) (Num 10) (js "Vegetables") [] (js "f1")))
  = [Tier.mk 10 38].
Proof.
  exact (proj1 (proj2 (handleSubmit_discount (js "0.k3j9x2")
    (Form.mk (js "Spinach") (Num 40) (Num 50) (Num 10) (js "Vegetables") [] (js "f1"))
    40 eq_refl ltac:(lia)))).
Defined.

(** X13. A saved product is the first of "Your Products" when its farmer
    is the first farmer, and is not listed there otherwise; the products
    listed before stay, in their order. Right after the save neither
    dashboard panel is rendered: the tab is set to "Shop", which no panel
    answers to. *)
Theorem saveProduct_your_products (newP : Product.t) (st : state)
    (f0 : Farmer.t) (others : list Farmer.t) :
  farmers st = f0 :: others ->
  exists before,
    yourProducts st = Some before
    /\ yourProducts (saveProduct newP st)
       = Some (if str_eq (Product.farmerId newP) (Farmer.id f0)
               then newP :: before else before)
    /\ buyerPanel (saveProduct newP st) = false
    /\ farmerPanel (saveProduct newP st) = false.
Proof.
  intros Hf. unfold yourProducts. simpl. rewrite Hf. eexists. split; [done |].
  simpl. by destruct (str_eq (Product.farmerId newP) (Farmer.id f0)).
Qed.

Lemma saveProduct_your_products_witness :
  yourProducts
    (saveProduct
       (handleSubmit (js "0.k3j9x2")
          (Form.mk (js "Spinach") (Num 40) (Num 50) (Num 10) (js "Vegetables") [] (js "f1")))
       initialState)
  = Some [ handleSubmit (js "0.k3j9x2")
             (Form.mk (js "Spinach") (Num 40) (Num 50) (Num 10) (js "Vegetables") []
                (js "f1"));
           mangoes ].
Proof.
  destruct (saveProduct_your_products
              (handleSubmit (js "0.k3j9x2")
                 (Form.mk (js "Spinach") (Num 40) (Num 50) (Num 10) (js "Vegetables") []
                    (js "f1")))
              initialState _ _ eq_refl) as (before & Hb & Hs & _).
  injection Hb as <-. exact Hs.
Defined.

(** ** Farmers by identifier *)

Lemma farmersById_snoc (farmers : list Farmer.t) (f : Farmer.t) :
  farmersById (farmers ++ [f]) = <[Farmer.id f := f]> (farmersById farmers).
Proof. unfold farmersById. by rewrite fold_left_app. Qed.

Lemma farmersById_find (farmers : list Farmer.t) (k : jsstring) :
  farmersById farmers !! k
  = List.find (fun f => str_eq (Farmer.id f) k) (rev farmers).
Proof.
  induction farmers as [|f farmers IH] using rev_ind; [done |].
  rewrite farmersById_snoc, rev_app_distr. simpl.
  destruct (str_eq (Farmer.id f) k) eqn:E.
  - apply str_eq_true in E. subst k. by rewrite lookup_insert_eq.
  - apply str_eq_false in E. by rewrite lookup_insert_ne.
Qed.

(** X14. [farmersById] holds, under an identifier, the last farmer of the
    list with that identifier, and nothing under an identifier no farmer
    has. When the identifiers of the list are pairwise distinct, every
    farmer of the list is found under its own. *)
Theorem farmersById_lookup (farmers : list Farmer.t) :
  (forall k, farmersById farmers !! k
             = List.find (fun f => str_eq (Farmer.id f) k) (rev farmers))
  /\ (forall k f, farmersById farmers !! k = Some f -> In f farmers /\ Farmer.id f = k)
  /\ (forall k, farmersById farmers !! k = None <-> ~ In k (map Farmer.id farmers))
  /\ (List.NoDup (map Farmer.id farmers) ->
      forall f, In f farmers -> farmersById farmers !! Farmer.id f = Some f).
Proof.
  split; [apply farmersById_find |].
  assert (Hsome : forall k f, farmersById farmers !! k = Some f ->
                              In f farmers /\ Farmer.id f = k).
  { intros k f. rewrite farmersById_find. intros H.
    apply find_some in H as [Hin Hk]. split; [by apply in_rev | by apply str_eq_true]. }
  assert (Hnone : forall k, farmersById farmers !! k = None
                            <-> ~ In k (map Farmer.id farmers)).
  { intros k. rewrite farmersById_find, find_absent, List.Forall_forall. split.
    - intros H Hin. apply in_map_iff in Hin as (f & Hf & Hin).
      specialize (H f (proj1 (in_rev _ _) Hin)). apply str_eq_false in H. done.
    - intros H f Hin. apply str_eq_false. intros E. apply H. rewrite <- E.
      apply in_map. by apply in_rev. }
  split; [exact Hsome |]. split; [exact Hnone |].
  intros Hnd f Hin.
  destruct (farmersById farmers !! Farmer.id f) as [g|] eqn:E.
  - destruct (Hsome _ _ E) as [Hg Hid]. f_equal.
    clear E Hsome Hnone. induction farmers as [|h farmers IH]; [done |].
    simpl in Hnd. apply List.NoDup_cons_iff in Hnd as [Hh Hnd].
    destruct Hin as [-> | Hin], Hg as [-> | Hg]; try done.
    + exfalso. apply Hh. rewrite <- Hid. by apply in_map.
    + exfalso. apply Hh. rewrite Hid. by apply in_map.
    + by apply IH.
  - exfalso. apply Hnone in E. apply E. by apply in_map.
Qed.

(** ** RFQ modal *)

(** X15. "Send RFQ" puts at the head of the requests one for the selected
    product with the fields of the modal as they are, whatever they are
    (a quantity below the MOQ, an empty location), and closes the modal.
    Sent right after "Bulk" on a product, the request asks for the MOQ of
    that product, with the other fields empty. *)
Theorem sendRFQ_request (random36 now : jsstring) (m : Modal.t) (p : Product.t) (st : state) :
  (rfqProduct st = Some p ->
   exists st',
     sendRFQ random36 now m st = Some (RFQSubmitted, st')
     /\ rfqs st'
        = Rfq.mk (slice2 random36) now
            (Rfq.mkData (Product.id p) (Modal.qty m) (Modal.location m)
               (Modal.target m) (Modal.notes m))
          :: rfqs st
     /\ rfqProduct st' = None
     /\ cart st' = cart st)
  /\ (exists st',
        (let (m0, st0) := openBulk p st in sendRFQ random36 now m0 st0)
        = Some (RFQSubmitted, st')
        /\ rfqs st'
           = Rfq.mk (slice2 random36) now (Rfq.mkData (Product.id p) (Product.moq p) [] [] [])
             :: rfqs st
        /\ rfqProduct st' = None).
Proof.
  split.
  - intros H. unfold sendRFQ. rewrite H. simpl. by eexists.
  - simpl. by eexists.
Qed.

(** ** [classNames] *)

Lemma join_app (a b : list classArg) :
  a <> [] -> b <> [] -> join (a ++ b) = join a ++ js " " ++ join b.
Proof.
  induction a as [|x a IH]; intros Ha Hb; [done |].
  destruct a as [|y a].
  - simpl. destruct b; [done | done].
  - change (join ((x :: y :: a) ++ b)) with (arg_text x ++ js " " ++ join ((y :: a) ++ b)).
    rewrite IH by done.
    change (join (x :: y :: a)) with (arg_text x ++ js " " ++ join (y :: a)).
    by rewrite <- !app_assoc.
Qed.

Lemma join_truthy (l : list classArg) :
  Forall (fun a => Boolean a = true) l -> truthy (join l) = negb (bool_decide (l = [])).
Proof.
  intros H. destruct H as [|x l Hx _]; [done |].
  assert (Hs : exists c s, arg_text x = c :: s).
  { destruct x as [[|c s] | |]; try discriminate Hx. by exists c, s. }
  destruct Hs as (c & s & Hs). destruct l; simpl; by rewrite Hs.
Qed.

Lemma classNames_empty (args : list classArg) :
  truthy (classNames args) = existsb Boolean args.
Proof.
  unfold classNames. rewrite join_truthy by apply filter_Forall.
  induction args as [|a args IH]; [done |].
  simpl. destruct (Boolean a); [done | exact IH].
Qed.

(** X16. [classNames] gives the non-empty strings among its arguments,
    one space between two of them. For two runs of arguments it is the
    two results with a space between, or one of them when the other is
    empty; the result is empty exactly when no argument is a non-empty
    string; and [false], [undefined] and the empty string leave no trace. *)
Theorem classNames_compose (xs ys : list classArg) :
  classNames (xs ++ ys)
  = (if truthy (classNames xs)
     then if truthy (classNames ys)
          then classNames xs ++ js " " ++ classNames ys
          else classNames xs
     else classNames ys)
  /\ truthy (classNames xs) = existsb Boolean xs
  /\ classNames (List.filter Boolean xs) = classNames xs
  /\ classNames (xs ++ [ClsFalse; ClsUndefined; ClsStr []] ++ ys) = classNames (xs ++ ys).
Proof.
  assert (Hnil : forall l, existsb Boolean l = false -> List.filter Boolean l = []).
  { intros l. induction l as [|a l IH]; [done |]. simpl.
    destruct (Boolean a); [done | exact IH]. }
  assert (Hcons : forall l, existsb Boolean l = true -> List.filter Boolean l <> []).
  { intros l. induction l as [|a l IH]; [done |]. simpl.
    destruct (Boolean a); [done | exact IH]. }
  repeat split.
  - rewrite !classNames_empty. unfold classNames. rewrite List.filter_app.
    destruct (existsb Boolean xs) eqn:Ex, (existsb Boolean ys) eqn:Ey.
    + apply join_app; by apply Hcons.
    + by rewrite (Hnil ys Ey), app_nil_r.
    + by rewrite (Hnil xs Ex).
    + by rewrite (Hnil xs Ex).
  - apply classNames_empty.
  - unfold classNames. f_equal. apply filter_all, filter_Forall.
  - unfold classNames. by rewrite !List.filter_app.
Qed.

(** ** 3D viewer *)

Lemma viewer_cells (evs : list Viewer.event) (st : Viewer.t) :
  Viewer.error (Viewer.handleAll evs st) = Viewer.error st || existsb Viewer.isError evs
  /\ Viewer.scriptLoaded (Viewer.handleAll evs st)
     = Viewer.scriptLoaded st || existsb (fun ev => negb (Viewer.isError ev)) evs.
Proof.
  unfold Viewer.handleAll. revert st. induction evs as [|ev evs IH]; intros st; simpl.
  - by rewrite !orb_false_r.
  - destruct (IH (Viewer.handle st ev)) as [He Hl]. rewrite He, Hl.
    destruct ev; simpl; split; by rewrite ?orb_true_r, ?orb_false_r, ?orb_true_l.
Qed.

(** X17. The hero shows the static image as soon as one of the error
    callbacks has run and never leaves it again, whatever callbacks
    follow; it shows the 3D viewer exactly when the script has been
    reported loaded and no error callback has run, and the loading
    placeholder before any callback. *)
Theorem viewer_fallback_absorbing (evs : list Viewer.event) :
  Viewer.render (Viewer.handleAll evs Viewer.initial)
  = (if existsb Viewer.isError evs then Viewer.FallbackImage
     else match evs with
          | [] => Viewer.LoadingPlaceholder
          | _ :: _ => Viewer.ModelViewer
          end)
  /\ (forall st more,
        Viewer.render st = Viewer.FallbackImage ->
        Viewer.render (Viewer.handleAll more st) = Viewer.FallbackImage)
  /\ (forall st more,
        Viewer.render st = Viewer.ModelViewer ->
        Viewer.render (Viewer.handleAll more st) <> Viewer.LoadingPlaceholder).
Proof.
  repeat split.
  - unfold Viewer.render. destruct (viewer_cells evs Viewer.initial) as [-> ->]. simpl.
    destruct (existsb Viewer.isError evs) eqn:E; [done |].
    destruct evs as [|ev evs]; [done |]. simpl in *.
    apply orb_false_iff in E as [-> _]. done.
  - intros st more. unfold Viewer.render.
    destruct (viewer_cells more st) as [-> _].
    destruct (Viewer.error st); [done |]. by destruct (Viewer.scriptLoaded st).
  - intros st more. unfold Viewer.render.
    destruct (viewer_cells more st) as [-> ->].
    destruct (Viewer.error st); [done |].
    destruct (Viewer.scriptLoaded st); [| done]. simpl.
    by destruct (existsb Viewer.isError more).
Qed.

(** ** Quantity changes and the total *)

(** X18. Setting the quantity of the line at [i] to [qty] moves the total
    by the price of the line times the change of quantity, for any
    integer [qty]; a quantity of 0 takes the line out of the total while
    the line stays in the cart, and a negative one lowers the total below
    that of the other lines. *)
Theorem setQty_total (st : state) (i : nat) (x : CartLine.t) (qty : Z) :
  List.NoDup (map CartLine.id (cart st)) ->
  cart st !! i = Some x ->
  let st' := setQty (CartLine.id x) qty st in
  totalINR (cart st')
  = totalINR (cart st) + CartLine.priceINR x * (qty - CartLine.qty x)
  /\ cartCount st' = cartCount st
  /\ totalINR (cart st') = totalINR (delete i (cart st)) + CartLine.priceINR x * qty.
Proof.
  intros Hnd Hi st'. subst st'. unfold cartCount.
  rewrite (setQty_at st i x qty Hnd Hi).
  rewrite (totalINR_insert _ _ _ _ Hi), (totalINR_delete _ _ _ Hi), length_insert.
  unfold lineAmount, CartLine.priceINR. simpl. repeat split; lia.
Qed.

Lemma setQty_total_witness :
  totalINR (cart (setQty (js "p2") (-3) (addToCart milk (addToCart tomatoes initialState))))
  = 8900 + 15000 + 89 * (-3 - 100).
Proof.
  exact (proj1 (setQty_total (addToCart milk (addToCart tomatoes initialState)) 0
                  (CartLine.mk tomatoes 100) (-3)
                  ltac:(apply NoDup_check; reflexivity) eq_refl)).
Defined.

(** X19. Setting the quantity for an identifier that no line has changes
    nothing: no line is made. *)
Theorem setQty_absent_noop (st : state) (id0 : jsstring) (qty : Z) :
  ~ In id0 (map CartLine.id (cart st)) -> setQty id0 qty st = st.
Proof.
  intros H. unfold setQty. apply setCart_same. unfold setQty_next.
  apply (map_absent (sameId id0) (fun x => CartLine.mk (CartLine.product x) qty)).
  by apply sameId_absent.
Qed.

Lemma setQty_absent_noop_witness :
  setQty (js "p9") 5 (addToCart tomatoes initialState) = addToCart tomatoes initialState.
Proof.
  exact (setQty_absent_noop (addToCart tomatoes initialState) (js "p9") 5
           ltac:(simpl; intros [H | []]; discriminate H)).
Defined.

(** ** Requests under the handlers *)

Lemma step_rfqs (st : state) (a : action) :
  rfqs (step st a) = rev (submitted [a]) ++ rfqs st.
Proof. by destruct a. Qed.

Lemma submitted_app (a b : list action) : submitted (a ++ b) = submitted a ++ submitted b.
Proof.
  induction a as [|x a IH]; [done |]. destruct x; simpl; by rewrite ?IH.
Qed.

(** X20. Whatever handlers are called, the requests are those there were,
    unchanged and in their order, with the requests of the [submitRFQ]
    calls before them, the latest first: checkout, the cart handlers and
    the form leave the requests alone, and no request is ever dropped. *)
Theorem rfqs_only_grow (acts : list action) (st : state) :
  rfqs (run acts st) = rev (submitted acts) ++ rfqs st
  /\ length (rfqs (run acts st)) = (length (submitted acts) + length (rfqs st))%nat.
Proof.
  assert (E : rfqs (run acts st) = rev (submitted acts) ++ rfqs st).
  { unfold run. revert st. induction acts as [|a acts IH]; intros st; [done |].
    simpl fold_left. rewrite IH, step_rfqs.
    change (a :: acts) with ([a] ++ acts).
    by rewrite submitted_app, rev_app_distr, <- app_assoc. }
  split; [exact E |]. by rewrite E, length_app, length_rev.
Qed.
